(** * Heston model calibration and autocallable-note pricing

    A shallow embedding of [src/heston_pricer.py] and [src/calibration.py].

    Conventions of the embedding:
    - a [ql.Date] is its serial number, an integer ([Z]);
    - Python floats of the pricer are rationals ([Q]); rounding is not
      modelled.  The calibration objective needs a square root and is
      stated over the reals ([R]);
    - a Python exception is the [Raise] outcome of [result];
    - QuantLib objects are external collaborators: they appear as the
      [Variable]s of the sections below and every theorem quantifies over
      them. *)

From Stdlib Require Import ZArith QArith List Lia Psatz Bool Sorted.
From Stdlib Require Import Reals.
From stdpp Require Import base option list gmap fin_maps.

(** ** Outcomes of a Python call *)

Inductive exn : Set :=
| IndexError      (* sequence index out of range *)
| KeyError        (* missing dictionary key *)
| ValueError      (* bad argument value: max() of an empty sequence,
                     negative array dimension, shape mismatch, unpacking *)
| TypeError       (* argument of a type the callee does not take *)
| QuantLibError.  (* raised inside the external library *)

Inductive result (A : Type) : Type :=
| Value (a : A)
| Raise (e : exn).

Arguments Value {A} a.
Arguments Raise {A} e.

Definition rbind {A B : Type} (r : result A) (k : A -> result B) : result B :=
  match r with
  | Value a => k a
  | Raise e => Raise e
  end.

Notation "'let*' x ':=' r 'in' k" := (rbind r (fun x => k))
  (at level 10, x name, r at level 100, k at level 200).

(** [mapM] for [result]: a list comprehension whose body may raise. *)
Fixpoint traverse {A B : Type} (f : A -> result B) (l : list A) : result (list B) :=
  match l with
  | nil => Value nil
  | a :: l' =>
      let* b := f a in
      let* bs := traverse f l' in
      Value (b :: bs)
  end.

(** A Python float as returned by [np.mean]: a number, or [nan] for the
    mean of an empty array. *)
Inductive pyfloat : Set :=
| Num (q : Q)
| NaN.

(** Sum of a list of rationals ([np.sum]). *)
Definition Qsum (l : list Q) : Q := fold_left Qplus l (0%Q).

(** [np.mean] of a one-dimensional array. *)
Definition np_mean (l : list Q) : pyfloat :=
  match l with
  | nil => NaN
  | _ :: _ => Num (Qsum l / inject_Z (Z.of_nat (length l)))
  end.

(** Python's [max] over a sequence of floats: raises on an empty sequence,
    otherwise keeps the first maximal element. *)
Definition py_max (l : list Q) : result Q :=
  match l with
  | nil => Raise ValueError
  | x :: xs => Value (fold_left (fun m y => if Qlt_le_dec m y then y else m) xs x)
  end.

(** [seq[-1]] *)
Definition index_last {A : Type} (l : list A) : result A :=
  match List.rev l with
  | nil => Raise IndexError
  | x :: _ => Value x
  end.

(** [seq[0]] *)
Definition index_first {A : Type} (l : list A) : result A :=
  match l with
  | nil => Raise IndexError
  | x :: _ => Value x
  end.

(** ** Calibration: what both calibration routines share *)

Module Optimize.

Local Open Scope R_scope.

(** The parameter vector [v0, kappa, theta, sigma, rho], as the array
    handed to [setParams]. *)
Definition params : Type := list R.

(** Per-parameter [(lo, hi)] ranges. *)
Definition bounds : Type := list (R * R).

(** The data of one [ql.HestonModelHelper]: days to expiry, strike and
    quoted volatility. *)
Record helper : Type := {
  maturity : Z;
  strike : R;
  market_vol : R
}.

(** The one piece of mutable state: the parameters currently held by the
    shared [HestonModel] (and its process). *)
Definition State (A : Type) : Type := params -> A * params.

Definition ret {A : Type} (a : A) : State A := fun m => (a, m).

Definition bind {A B : Type} (c : State A) (k : A -> State B) : State B :=
  fun m => let '(a, m') := c m in k a m'.

(** [model.setParams(ql.Array(params))] *)
Definition setParams (p : params) : State unit := fun _ => (tt, p).

(** Read the current parameters. *)
Definition get : State params := fun m => (m, m).

Notation "'do' x <- c ; k" := (bind c (fun x => k))
  (at level 10, x name, c at level 100, k at level 200).

(** An injected optimizer, seen from the objective it is given: it asks for
    the objective at a parameter vector and goes on from the value, or it
    stops with its best vector (the [.x] of its result). *)
Inductive optimizer_run : Type :=
| Result (x : params)
| Evaluate (p : params) (k : R -> optimizer_run).

(** Running an optimizer against a stateful objective. *)
Fixpoint run_optimizer (o : optimizer_run) (objective : params -> State R)
    : State params :=
  match o with
  | Result x => ret x
  | Evaluate p k => do v <- objective p; run_optimizer (k v) objective
  end.

(** The parameter vectors at which a run of the optimizer evaluates the
    objective, in the order of the calls. *)
Fixpoint evaluations (o : optimizer_run) (objective : params -> State R)
    (m : params) : list params :=
  match o with
  | Result _ => nil
  | Evaluate p k =>
      let '(v, m') := objective p m in
      p :: evaluations (k v) objective m'
  end.

(** [np.sum] *)
Definition Rsum (l : list R) : R := fold_right Rplus 0 l.

(** [seq[i]] for a non-negative index. *)
Definition index {A : Type} (l : list A) (i : nat) : result A :=
  match nth_error l i with
  | Some a => Value a
  | None => Raise IndexError
  end.

(** [enumerate(seq)] *)
Definition enumerate {A : Type} (l : list A) : list (nat * A) :=
  combine (seq 0 (length l)) l.

(** The two nested loops that build the calibration helpers, one per
    (expiry, strike) pair, reading [market_vols[i][j]]
    (calibration.py 43-52, heston_pricer.py 98-112). *)
Definition build_helpers (valuation_date : Z) (expirations : list Z)
    (strikes : list R) (market_vols : list (list R)) : result (list helper) :=
  let* rows :=
    traverse (fun '(i, expiry) =>
      traverse (fun '(j, k) =>
        let* row := index market_vols i in
        let* vol := index row j in
        Value {| maturity := expiry - valuation_date;
                 strike := k;
                 market_vol := vol |})
        (enumerate strikes))
      (enumerate expirations) in
  Value (concat rows).

Section Objective.

(** External collaborator: [helper.calibrationError()], which prices the
    helper with the engine attached to the shared model and so depends on
    the parameters the model holds at the time of the call. *)
Variable calibrationError : helper -> params -> R.

(** [[h.calibrationError() for h in helpers]] *)
Definition errors (helpers : list helper) : State (list R) :=
  do m <- get; ret (map (fun h => calibrationError h m) helpers).

(** [cost_function] (calibration.py 54-57), from the array its argument is
    converted to *)
Definition cost_function (helpers : list helper) (p : params) : State R :=
  do _ <- setParams p;
  do es <- errors helpers;
  ret (sqrt (Rsum (map (fun e => e * e) es))).

(** [objective_function] (heston_pricer.py 114-119) *)
Definition objective_function (helpers : list helper) (p : params) : State R :=
  do _ <- setParams p;
  do es <- errors helpers;
  ret (sqrt (Rsum (map Rabs es))).

End Objective.

End Optimize.

(** ** [src/calibration.py] *)

Module calibration.

Import Optimize.
Local Open Scope R_scope.

(** Line 59 *)
Definition default_bounds : bounds :=
  (1/1000, 2) :: (1/100, 5) :: (1/1000, 1) :: (1/100, 1) :: (-(99/100), 99/100) :: nil.

Section Calibrate.

Variable calibrationError : helper -> params -> R.

(** External collaborators: the Python objects that an optimizer hands to
    the cost function and reports as the [x] of its result (a list, a numpy
    array, ...), and [ql.Array(obj)], the QuantLib constructor that lines 55
    and 63 apply to them as they come, without converting them to a list
    first: it yields the array of their entries, or raises. *)
Variable vector : Type.
Variable ql_Array : vector -> result params.

(** [cost_function] (lines 54-57) as the optimizer calls it: the argument
    is converted on line 55 before anything else, so when the conversion
    raises the model has not been touched. *)
Definition cost_function (helpers : list helper) (a : vector) : State (result R) :=
  fun model =>
    match ql_Array a with
    | Value p =>
        let '(v, model') := Optimize.cost_function calibrationError helpers p model in
        (Value v, model')
    | Raise e => (Raise e, model)
    end.

(** An injected optimizer, seen from the cost function it is given: it
    asks for the cost at a vector and goes on from the outcome (the value,
    or the exception raised, which it may catch), it stops with a result
    whose [x] is its best vector, or it raises (an exception of the cost
    function that it lets through included). *)
Inductive strategy : Type :=
| Report (x : vector)
| Probe (a : vector) (k : result R -> strategy)
| Abort (e : exn).

(** Running such an optimizer against a stateful cost function. *)
Fixpoint run_strategy (s : strategy) (objective : vector -> State (result R))
    : State (result vector) :=
  match s with
  | Report x => ret (Value x)
  | Probe a k => do outcome <- objective a; run_strategy (k outcome) objective
  | Abort e => ret (Raise e)
  end.

(** [calibrate_heston_model] (lines 11-65): the pair returned is the
    parameters held by the returned model and [calibrated_params]. *)
Definition calibrate_heston_model (valuation_date : Z) (initial_params : params)
    (expirations : list Z) (strikes : list R) (market_vols : list (list R))
    (optimizer : (vector -> State (result R)) -> bounds -> State (result vector))
    : result (params * vector) :=
  match initial_params with
  | v0 :: kappa :: theta :: sigma :: rho :: nil =>
      let model := v0 :: kappa :: theta :: sigma :: rho :: nil in
      let* helpers := build_helpers valuation_date expirations strikes market_vols in
      let '(outcome, model1) :=
        optimizer (cost_function helpers) default_bounds model in
      let* calibrated_params := outcome in
      let* array := ql_Array calibrated_params in
      let '(_, model2) := setParams array model1 in
      Value (model2, calibrated_params)
  | _ => Raise ValueError
  end.

End Calibrate.

End calibration.

(** ** [class HestonPricer] (src/heston_pricer.py) *)

Module HestonPricer.

Local Open Scope Q_scope.

(** The fields of [self] that the methods read. *)
Record pricer : Type := {
  valuation_date : Z;
  spot_price : Q;
  strike_price : Q
}.

(** The [product_specs] dictionary.  The seven keys read with
    [product_specs[...]] are fields; the two read with [.get(key, default)]
    are optional. *)
Record product_specs : Type := {
  coupon_dates : list Z;
  notional : Q;
  autocall_barrier : Q;
  coupon_barrier : Q;
  protection_barrier : Q;
  coupon_rate : Q;
  has_memory : bool;
  past_fixings : option (gmap Z Q);
  final_payoff_formula : option (Q -> Q)
}.

(** The transient state of the loop over one path (lines 176-178). *)
Record path_state : Type := {
  total_pv : Q;
  unpaid_coupons : Z;
  has_been_called : bool
}.

Definition initial_state : path_state :=
  {| total_pv := 0; unpaid_coupons := 0; has_been_called := false |}.

(** The invariant of the loop over a path: the accumulated value and the
    counter of unpaid coupons are never below zero. *)
Definition state_nonneg (st : path_state) : Prop :=
  0 <= total_pv st /\ (0 <= unpaid_coupons st)%Z.

(** The coupon budget kept by the loop over a path: after [k]
    observations a path that is still running has been paid at most
    [k - unpaid_coupons] coupons, and a called path at most the notional
    and [k] coupons. *)
Definition within_budget (specs : product_specs) (k : Z) (st : path_state) : Prop :=
  if has_been_called st
  then total_pv st <= notional specs * (1 + coupon_rate specs * inject_Z k)
  else (0 <= unpaid_coupons st <= k)%Z
       /\ total_pv st
          <= notional specs * (coupon_rate specs * inject_Z (k - unpaid_coupons st)).

(** [ql.Actual360().yearFraction(d1, d2)] *)
Definition yearFraction (d1 d2 : Z) : Q := inject_Z (d2 - d1) / 360.

(** [(time_grid.shape[0] - 1) * 2] (line 56) *)
Definition grid_steps (n_times : nat) : Z := (Z.of_nat n_times - 1) * 2.

(** [paths[i, :] = np.array(row)] into a row of [n] columns: equal length
    is copied, a single element is broadcast, anything else is a shape
    mismatch. *)
Definition assign_row (n : nat) (row : list Q) : result (list Q) :=
  if Nat.eqb (length row) n then Value row
  else match row with
       | x :: nil => Value (List.repeat x n)
       | _ => Raise ValueError
       end.

Section Pricer.

(** External collaborators. *)
Variable Process : Type.
(** [self.risk_free_curve.discount(date)] *)
Variable discount : Z -> Q.
(** Construction of the random sequence generators and of
    [ql.GaussianMultiPathGenerator(process, time_grid, generator, False)]
    from the process, the time grid and the dimension [grid_steps]
    (lines 57-63): it raises, or yields the sequence of sample paths of
    the first factor, the [i]-th being the one drawn by the [i]-th call
    of [next()]. *)
Variable path_generator : Process -> list Q -> Z -> result (nat -> list Q).

Variable self : pricer.

(** Lines 51-54: the year fractions from the first observation date. *)
Definition time_grid_of (observation_dates : list Z) : list Q :=
  match observation_dates with
  | nil => nil
  | d0 :: _ => List.map (yearFraction d0) observation_dates
  end.

(** [generate_paths] (lines 39-71) *)
Definition generate_paths (observation_dates : list Z) (heston_process : Process)
    (num_paths : Z) : result (list (list Q)) :=
  let time_grid := time_grid_of observation_dates in
  let n := length time_grid in
  let* draw := path_generator heston_process time_grid (grid_steps n) in
  if (num_paths <? 0)%Z then Raise ValueError
  else traverse (fun i => assign_row n (draw i)) (seq 0 (Z.to_nat num_paths)).

Section Payoff.

Variable specs : product_specs.
Variable expiration_date : Z.

Definition memory_factor : Z := if has_memory specs then 1 else 0.

(** [product_specs.get('final_payoff_formula', lambda x: x / self.strike_price)] *)
Definition final_payoff (x : Q) : Q :=
  match final_payoff_formula specs with
  | Some f => f x
  | None => x / strike_price self
  end.

(** The coupon multiple [1 + unpaid_coupons * memory_factor], an
    integer, converted when multiplied by the rate. *)
Definition coupon_multiple (unpaid : Z) : Q :=
  inject_Z (1 + unpaid * memory_factor).

(** Lines 184-205: the payoff of one observation of a path that has not
    been called, with the new counter and called flag. *)
Definition observation_payoff (unpaid : Z) (observation_date : Z)
    (underlying_level : Q) : Q * Z * bool :=
  if (observation_date =? expiration_date)%Z then
    if Qle_bool (coupon_barrier specs) underlying_level then
      (notional specs * (1 + coupon_rate specs * coupon_multiple unpaid), unpaid, false)
    else if Qle_bool (protection_barrier specs) underlying_level then
      (notional specs, unpaid, false)
    else
      let actual_level := underlying_level * strike_price self in
      (notional specs * final_payoff actual_level, unpaid, false)
  else
    if Qle_bool (autocall_barrier specs) underlying_level then
      (notional specs * (1 + coupon_rate specs * coupon_multiple unpaid), unpaid, true)
    else if Qle_bool (coupon_barrier specs) underlying_level then
      (notional specs * (coupon_rate specs * coupon_multiple unpaid), 0%Z, false)
    else
      (0, (unpaid + 1)%Z, false).

(** Lines 207-210: only a payoff at a date after the valuation date is
    discounted and added. *)
Definition credit (pv : Q) (observation_date : Z) (payoff : Q) : Q :=
  if (valuation_date self <? observation_date)%Z
  then pv + payoff * discount observation_date
  else pv.

(** Lines 184-210: one turn of the loop body after the [break] test. *)
Definition observe (st : path_state) (observation_date : Z)
    (underlying_level : Q) : path_state :=
  let '(payoff, unpaid, called) :=
    observation_payoff (unpaid_coupons st) observation_date underlying_level in
  {| total_pv := credit (total_pv st) observation_date payoff;
     unpaid_coupons := unpaid;
     has_been_called := called |}.

(** Lines 180-210: the loop over [zip(coupon_dates, path / strike)]. *)
Fixpoint walk (st : path_state) (obs : list (Z * Q)) : path_state :=
  match obs with
  | nil => st
  | (d, lvl) :: rest =>
      if has_been_called st then st
      else walk (observe st d lvl) rest
  end.

(** Lines 176-212 for one row of [paths]. *)
Definition path_pv (path : list Q) : Q :=
  total_pv (walk initial_state
              (List.combine (coupon_dates specs)
                 (List.map (fun x => x / strike_price self) path))).

End Payoff.

(** [product_specs.get('past_fixings', {})] *)
Definition fixings (specs : product_specs) : gmap Z Q :=
  match past_fixings specs with
  | Some m => m
  | None => ∅
  end.

(** [past_fixings.values()] *)
Definition fixing_values (specs : product_specs) : list Q :=
  List.map snd (map_to_list (fixings specs)).

(** [past_fixings[date]] *)
Definition fixing_at (specs : product_specs) (date : Z) : result Q :=
  match fixings specs !! date with
  | Some v => Value v
  | None => Raise KeyError
  end.

(** Lines 152-154: [true] when the function returns [0.0] there. *)
Definition already_autocalled (specs : product_specs) : result bool :=
  let* first := index_first (coupon_dates specs) in
  if (first <=? valuation_date self)%Z then
    let* m := py_max (fixing_values specs) in
    Value (Qle_bool (autocall_barrier specs * strike_price self) m)
  else Value false.

(** Lines 156-168: the matrix of levels, past fixings then simulated. *)
Definition build_paths (specs : product_specs) (heston_process : Process)
    (num_paths : Z) : result (list (list Q)) :=
  let cd := coupon_dates specs in
  let future_dates := List.filter (fun d => (valuation_date self <? d)%Z) cd in
  let observation_dates := valuation_date self :: future_dates in
  let* generated := generate_paths observation_dates heston_process num_paths in
  let paths := List.map (@List.tl Q) generated in
  let past_dates := List.filter (fun d => (d <=? valuation_date self)%Z) cd in
  match past_dates with
  | nil => Value paths
  | _ :: _ =>
      let* past_fixings_array := traverse (fixing_at specs) past_dates in
      Value (List.map (fun row => past_fixings_array ++ row) paths)
  end.

(** [price_autocallable_note] (lines 126-214) *)
Definition price_autocallable_note (specs : product_specs)
    (heston_process : Process) (num_paths : Z) : result pyfloat :=
  let* last := index_last (coupon_dates specs) in
  if (last <=? valuation_date self)%Z then Value (Num 0)
  else
    let* called := already_autocalled specs in
    if called then Value (Num 0)
    else
      let* paths := build_paths specs heston_process num_paths in
      Value (np_mean (List.map (path_pv specs last) paths)).

End Pricer.

(** The [market_data] dictionary. *)
Record market_data : Type := {
  expiration_dates : list Z;
  strikes : list R;
  volatilities : list (list R)
}.

Section Calibrate.

Import Optimize.

Variable calibrationError : helper -> params -> R.
Variable self : pricer.

(** [calibrate_heston_model] (lines 73-124).  The value is the parameter
    vector held by the returned [heston_model]. *)
Definition calibrate_heston_model (data : market_data) (initial_params : params)
    (parameter_bounds : bounds)
    (optimizer : (params -> State R) -> bounds -> State params)
    : result params :=
  match initial_params with
  | v0 :: kappa :: theta :: sigma :: rho :: nil =>
      let heston_model := v0 :: kappa :: theta :: sigma :: rho :: nil in
      let* calibration_helpers :=
        build_helpers (valuation_date self) (expiration_dates data)
          (strikes data) (volatilities data) in
      let '(_, heston_model1) :=
        optimizer (objective_function calibrationError calibration_helpers)
          parameter_bounds heston_model in
      Value heston_model1
  | _ => Raise ValueError
  end.

End Calibrate.

End HestonPricer.

(** ** Concrete data used in the examples below *)

Module Examples.

Import HestonPricer.

Local Open Scope Q_scope.

(** A pricer valued at day 0 with strike 100. *)
Definition pricer0 : pricer :=
  {| valuation_date := 0; spot_price := 100; strike_price := 100 |}.

(** An Athena-style note with memory: four semiannual observations,
    autocall and coupon barriers at 100%, protection at 60%, 5% coupon. *)
Definition athena (fixings : option (gmap Z Q)) : product_specs :=
  {| coupon_dates := (180 :: 360 :: 540 :: 720 :: nil)%Z;
     notional := 1000;
     autocall_barrier := 1;
     coupon_barrier := 1;
     protection_barrier := 6 # 10;
     coupon_rate := 5 # 100;
     has_memory := true;
     past_fixings := fixings;
     final_payoff_formula := None |}.

(** A Phoenix-style note: as [athena] with the coupon barrier at 70%. *)
Definition phoenix : product_specs :=
  {| coupon_dates := (180 :: 360 :: 540 :: 720 :: nil)%Z;
     notional := 1000;
     autocall_barrier := 1;
     coupon_barrier := 7 # 10;
     protection_barrier := 6 # 10;
     coupon_rate := 5 # 100;
     has_memory := true;
     past_fixings := None;
     final_payoff_formula := None |}.

(** A flat curve with discount factor 1. *)
Definition no_discounting (d : Z) : Q := 1.

(** A path generator that accepts every time grid and always draws the
    same sample path. *)
Definition fixed_generator (sample : list Q)
    (_ : unit) (_ : list Q) (_ : Z) : result (nat -> list Q) :=
  Value (fun _ => sample).

(** The pricer valued on the last coupon date of [athena]. *)
Definition pricer_at_maturity : pricer :=
  {| valuation_date := 720; spot_price := 100; strike_price := 100 |}.

(** The pricer valued between the first and the second coupon date. *)
Definition pricer_after_first : pricer :=
  {| valuation_date := 200; spot_price := 100; strike_price := 100 |}.

(** A note whose terminal payoff below the protection barrier is a fixed
    recovery of 50%. *)
Definition recovery_note : product_specs :=
  {| coupon_dates := (180 :: 360 :: 540 :: 720 :: nil)%Z;
     notional := 1000;
     autocall_barrier := 1;
     coupon_barrier := 1;
     protection_barrier := 6 # 10;
     coupon_rate := 5 # 100;
     has_memory := true;
     past_fixings := None;
     final_payoff_formula := Some (fun _ => 1 # 2) |}.

(** A sample path over the valuation date and the four coupon dates:
    100, 95, 105, 100, 100. *)
Definition sample_path : list Q := 100 :: 95 :: 105 :: 100 :: 100 :: nil.

(** *** Calibration *)

Local Open Scope R_scope.

(** A surface with one expiry and one strike. *)
Definition one_quote : market_data :=
  {| expiration_dates := 180%Z :: nil;
     strikes := 100 :: nil;
     volatilities := (35/100 :: nil) :: nil |}.

(** The helper built from [one_quote] at valuation date 0. *)
Definition one_helper : Optimize.helper :=
  {| Optimize.maturity := 180; Optimize.strike := 100; Optimize.market_vol := 35/100 |}.

(** The initial guess of [main_example]. *)
Definition guess : Optimize.params := 1/100 :: 1/2 :: 1/100 :: 1/5 :: -(1/2) :: nil.

Definition candidate_a : Optimize.params := 4/100 :: 1 :: 4/100 :: 1/2 :: -(1/2) :: nil.

Definition candidate_b : Optimize.params := 9/100 :: 2 :: 9/100 :: 1/2 :: -(1/2) :: nil.

(** An optimizer that evaluates the objective at [candidate_a], then at
    [candidate_b], and reports [candidate_a] as its best vector. *)
Definition two_probes (objective : Optimize.params -> Optimize.State R)
    (_ : Optimize.bounds) : Optimize.State Optimize.params :=
  Optimize.run_optimizer
    (Optimize.Evaluate candidate_a (fun _ =>
       Optimize.Evaluate candidate_b (fun _ =>
         Optimize.Result candidate_a)))
    objective.

(** A calibration error of 4 for every helper and parameter vector. *)
Definition error_four (_ : Optimize.helper) (_ : Optimize.params) : R := 4.

Local Close Scope R_scope.

(** As [phoenix], without the memory feature. *)
Definition plain_note : product_specs :=
  {| coupon_dates := (180 :: 360 :: 540 :: 720 :: nil)%Z;
     notional := 1000;
     autocall_barrier := 1;
     coupon_barrier := 7 # 10;
     protection_barrier := 6 # 10;
     coupon_rate := 5 # 100;
     has_memory := false;
     past_fixings := None;
     final_payoff_formula := None |}.

(** The pricer valued between the second and the third coupon date. *)
Definition pricer_after_second : pricer :=
  {| valuation_date := 400; spot_price := 100; strike_price := 100 |}.

(** A sample path over a valuation date and two coupon dates. *)
Definition short_path : list Q := 100 :: 90 :: 80 :: nil.

(** The strategy of [two_probes], as a function of the bounds. *)
Definition probe_strategy (_ : Optimize.bounds) : Optimize.optimizer_run :=
  Optimize.Evaluate candidate_a (fun _ =>
    Optimize.Evaluate candidate_b (fun _ =>
      Optimize.Result candidate_a)).


(** The two kinds of vector an optimizer may hand over: a Python list and
    a numpy array (what the optimizers of scipy use). *)
Inductive pyvector : Type :=
| PyList (entries : Optimize.params)
| NdArray (entries : Optimize.params).

(** An instance of [ql.Array]: a Python list is converted, a numpy array
    is refused with [TypeError]. *)
Definition swig_Array (a : pyvector) : result Optimize.params :=
  match a with
  | PyList entries => Value entries
  | NdArray _ => Raise TypeError
  end.

(** The optimizer of [probe_strategy], handing Python lists over. *)
Definition list_probes (_ : Optimize.bounds) : calibration.strategy pyvector :=
  calibration.Probe pyvector (PyList candidate_a) (fun _ =>
    calibration.Probe pyvector (PyList candidate_b) (fun _ =>
      calibration.Report pyvector (PyList candidate_a))).

(** An optimizer that hands numpy arrays over and lets an exception of
    the cost function through. *)
Definition numpy_probes (_ : Optimize.bounds) : calibration.strategy pyvector :=
  calibration.Probe pyvector (NdArray candidate_a) (fun outcome =>
    match outcome with
    | Value _ => calibration.Report pyvector (NdArray candidate_a)
    | Raise e => calibration.Abort pyvector e
    end).

End Examples.

(** * Properties *)

Section PayoffFacts.

Import HestonPricer.
Local Open Scope Q_scope.

Variable discount : Z -> Q.
Variable self : pricer.
Variable specs : product_specs.
Variable expiration_date : Z.

Lemma Qle_bool_false (a b : Q) : b < a -> Qle_bool a b = false.
Proof.
  intros Hlt. destruct (Qle_bool a b) eqn:E; [|reflexivity].
  apply Qle_bool_iff in E. exfalso. exact (Qlt_not_le _ _ Hlt E).
Qed.

Lemma Qle_bool_true (a b : Q) : a <= b -> Qle_bool a b = true.
Proof. intros H. now apply Qle_bool_iff. Qed.

(** A path that has been called is left as it is by the rest of the loop. *)
Lemma walk_called (st : path_state) (obs : list (Z * Q)) :
  has_been_called st = true ->
  walk discount self specs expiration_date st obs = st.
Proof.
  intros H. destruct obs as [|[d l] rest]; simpl; [reflexivity|].
  now rewrite H.
Qed.

(** One turn of the loop on a path that has not been called. *)
Lemma walk_active (st : path_state) (d : Z) (lvl : Q) (rest : list (Z * Q)) :
  has_been_called st = false ->
  walk discount self specs expiration_date st ((d, lvl) :: rest) =
  walk discount self specs expiration_date
    (observe discount self specs expiration_date st d lvl) rest.
Proof. intros H. simpl. now rewrite H. Qed.

(** The three branches taken at an intermediate date. *)
Lemma intermediate_autocall (u d : Z) (lvl : Q) :
  d <> expiration_date ->
  autocall_barrier specs <= lvl ->
  observation_payoff self specs expiration_date u d lvl =
  (notional specs * (1 + coupon_rate specs * coupon_multiple specs u), u, true).
Proof.
  intros Hd Ha. unfold observation_payoff.
  apply Z.eqb_neq in Hd. rewrite Hd.
  now rewrite (Qle_bool_true _ _ Ha).
Qed.

Lemma intermediate_coupon (u d : Z) (lvl : Q) :
  d <> expiration_date ->
  lvl < autocall_barrier specs ->
  coupon_barrier specs <= lvl ->
  observation_payoff self specs expiration_date u d lvl =
  (notional specs * (coupon_rate specs * coupon_multiple specs u), 0%Z, false).
Proof.
  intros Hd Ha Hc. unfold observation_payoff.
  apply Z.eqb_neq in Hd. rewrite Hd.
  now rewrite (Qle_bool_false _ _ Ha), (Qle_bool_true _ _ Hc).
Qed.

Lemma intermediate_miss (u d : Z) (lvl : Q) :
  d <> expiration_date ->
  lvl < autocall_barrier specs ->
  lvl < coupon_barrier specs ->
  observation_payoff self specs expiration_date u d lvl = (0, (u + 1)%Z, false).
Proof.
  intros Hd Ha Hc. unfold observation_payoff.
  apply Z.eqb_neq in Hd. rewrite Hd.
  now rewrite (Qle_bool_false _ _ Ha), (Qle_bool_false _ _ Hc).
Qed.

(** C3. At an intermediate observation date of a path that has not been
    called, the level is compared with the autocall barrier first, then
    with the coupon barrier, and only then counted as a missed coupon;
    both comparisons are [>=], so a level equal to a barrier takes that
    barrier's branch (and the autocall branch when the two barriers
    coincide). *)
Theorem barrier_checks_ordered_and_inclusive
    (st : path_state) (d : Z) (lvl : Q) (rest : list (Z * Q)) :
  has_been_called st = false ->
  d <> expiration_date ->
  let u := unpaid_coupons st in
  let pay := credit discount self (total_pv st) d in
  (autocall_barrier specs <= lvl ->
     walk discount self specs expiration_date st ((d, lvl) :: rest) =
     {| total_pv :=
          pay (notional specs * (1 + coupon_rate specs * coupon_multiple specs u));
        unpaid_coupons := u;
        has_been_called := true |})
  /\ (lvl < autocall_barrier specs -> coupon_barrier specs <= lvl ->
     walk discount self specs expiration_date st ((d, lvl) :: rest) =
     walk discount self specs expiration_date
       {| total_pv :=
            pay (notional specs * (coupon_rate specs * coupon_multiple specs u));
          unpaid_coupons := 0;
          has_been_called := false |} rest)
  /\ (lvl < autocall_barrier specs -> lvl < coupon_barrier specs ->
     walk discount self specs expiration_date st ((d, lvl) :: rest) =
     walk discount self specs expiration_date
       {| total_pv := pay 0;
          unpaid_coupons := u + 1;
          has_been_called := false |} rest).
Proof.
  intros Hact Hd u pay. repeat split.
  - intros Ha. rewrite (walk_active _ _ _ _ Hact). unfold observe.
    rewrite (intermediate_autocall _ _ _ Hd Ha). now apply walk_called.
  - intros Ha Hc. rewrite (walk_active _ _ _ _ Hact). unfold observe.
    now rewrite (intermediate_coupon _ _ _ Hd Ha Hc).
  - intros Ha Hc. rewrite (walk_active _ _ _ _ Hact). unfold observe.
    now rewrite (intermediate_miss _ _ _ Hd Ha Hc).
Qed.

(** C4. With the memory feature, a path that has no unpaid coupon, then
    misses the coupon barrier (and the autocall barrier) at two
    consecutive intermediate dates and reaches the coupon barrier, but
    not the autocall barrier, at the next intermediate date, has payoff
    notional x coupon_rate x 3 at that third date; the payoff is credited
    (discounted, when the date is after the valuation date) and the
    unpaid-coupon counter is back to 0. *)
Theorem memory_coupon_catch_up
    (st : path_state) (d1 d2 d3 : Z) (l1 l2 l3 : Q) (rest : list (Z * Q)) :
  has_memory specs = true ->
  has_been_called st = false ->
  unpaid_coupons st = 0%Z ->
  d1 <> expiration_date -> d2 <> expiration_date -> d3 <> expiration_date ->
  l1 < coupon_barrier specs -> l1 < autocall_barrier specs ->
  l2 < coupon_barrier specs -> l2 < autocall_barrier specs ->
  coupon_barrier specs <= l3 -> l3 < autocall_barrier specs ->
  exists payoff : Q,
    observation_payoff self specs expiration_date
      (unpaid_coupons
         (walk discount self specs expiration_date st ((d1, l1) :: (d2, l2) :: nil)))
      d3 l3 = (payoff, 0%Z, false)
    /\ payoff == notional specs * coupon_rate specs * 3
    /\ walk discount self specs expiration_date st
         ((d1, l1) :: (d2, l2) :: (d3, l3) :: rest) =
       walk discount self specs expiration_date
         {| total_pv :=
              credit discount self
                (credit discount self
                   (credit discount self (total_pv st) d1 0) d2 0) d3 payoff;
            unpaid_coupons := 0;
            has_been_called := false |} rest.
Proof.
  intros Hmem Hact Hu Hd1 Hd2 Hd3 Hc1 Ha1 Hc2 Ha2 Hc3 Ha3.
  exists (notional specs * (coupon_rate specs * 3)).
  assert (Hmult : coupon_multiple specs 2 = 3).
  { unfold coupon_multiple, memory_factor. now rewrite Hmem. }
  assert (Hstep2 :
    walk discount self specs expiration_date st ((d1, l1) :: (d2, l2) :: nil) =
    {| total_pv := credit discount self (credit discount self (total_pv st) d1 0) d2 0;
       unpaid_coupons := 2;
       has_been_called := false |}).
  { rewrite (walk_active _ _ _ _ Hact). unfold observe.
    rewrite (intermediate_miss _ _ _ Hd1 Ha1 Hc1), Hu.
    rewrite walk_active by reflexivity. unfold observe. simpl unpaid_coupons.
    now rewrite (intermediate_miss _ _ _ Hd2 Ha2 Hc2). }
  split; [|split].
  - rewrite Hstep2. simpl unpaid_coupons.
    now rewrite (intermediate_coupon _ _ _ Hd3 Ha3 Hc3), Hmult.
  - ring.
  - rewrite (walk_active _ _ _ _ Hact). unfold observe.
    rewrite (intermediate_miss _ _ _ Hd1 Ha1 Hc1), Hu.
    rewrite walk_active by reflexivity. unfold observe. simpl unpaid_coupons.
    rewrite (intermediate_miss _ _ _ Hd2 Ha2 Hc2).
    rewrite walk_active by reflexivity. unfold observe. simpl unpaid_coupons.
    simpl total_pv. change (0 + 1 + 1)%Z with 2%Z.
    now rewrite (intermediate_coupon _ _ _ Hd3 Ha3 Hc3), Hmult.
Qed.

End PayoffFacts.

Import Examples.

Lemma barrier_checks_ordered_and_inclusive_witness :
  HestonPricer.walk no_discounting pricer0 (athena None) 720
    HestonPricer.initial_state ((180%Z, 1%Q) :: nil) =
  {| HestonPricer.total_pv :=
       HestonPricer.credit no_discounting pricer0 0 180
         (1000 * (1 + (5 # 100) * HestonPricer.coupon_multiple (athena None) 0));
     HestonPricer.unpaid_coupons := 0;
     HestonPricer.has_been_called := true |}.
Proof.
  apply (proj1 (barrier_checks_ordered_and_inclusive no_discounting pricer0
                  (athena None) 720 HestonPricer.initial_state 180 1 nil
                  eq_refl ltac:(discriminate))).
  simpl. apply Qle_refl.
Defined.

Lemma memory_coupon_catch_up_witness :
  exists payoff : Q,
    HestonPricer.observation_payoff pricer0 phoenix 720
      (HestonPricer.unpaid_coupons
         (HestonPricer.walk no_discounting pricer0 phoenix 720
            HestonPricer.initial_state
            ((180%Z, 5 # 10) :: (360%Z, 6 # 10) :: nil)))
      540 (8 # 10) = (payoff, 0%Z, false)
    /\ (payoff == 1000 * (5 # 100) * 3)%Q
    /\ HestonPricer.walk no_discounting pricer0 phoenix 720
         HestonPricer.initial_state
         ((180%Z, 5 # 10) :: (360%Z, 6 # 10) :: (540%Z, 8 # 10) :: nil) =
       HestonPricer.walk no_discounting pricer0 phoenix 720
         {| HestonPricer.total_pv :=
              HestonPricer.credit no_discounting pricer0
                (HestonPricer.credit no_discounting pricer0
                   (HestonPricer.credit no_discounting pricer0 0 180 0) 360 0)
                540 payoff;
            HestonPricer.unpaid_coupons := 0;
            HestonPricer.has_been_called := false |} nil.
Proof.
  apply (memory_coupon_catch_up no_discounting pricer0 phoenix 720
           HestonPricer.initial_state 180 360 540 (5 # 10) (6 # 10) (8 # 10) nil);
    try reflexivity; try discriminate.
Defined.

Section PricingFacts.

Import HestonPricer.
Local Open Scope Q_scope.

Variable Process : Type.
Variable discount : Z -> Q.
Variable path_generator : Process -> list Q -> Z -> result (nat -> list Q).
Variable self : pricer.

Lemma fold_max_ge_init (xs : list Q) (a : Q) :
  a <= fold_left (fun m y => if Qlt_le_dec m y then y else m) xs a.
Proof.
  revert a. induction xs as [|y xs IH]; intros a; simpl.
  - apply Qle_refl.
  - destruct (Qlt_le_dec a y) as [Hlt|Hle].
    + eapply Qle_trans; [apply Qlt_le_weak, Hlt | apply IH].
    + apply IH.
Qed.

Lemma fold_max_ge_elem (xs : list Q) (a x : Q) :
  In x xs ->
  x <= fold_left (fun m y => if Qlt_le_dec m y then y else m) xs a.
Proof.
  revert a. induction xs as [|y xs IH]; intros a Hin; simpl in *.
  - contradiction.
  - destruct Hin as [->|Hin]; [|now apply IH].
    destruct (Qlt_le_dec a x) as [Hlt|Hle].
    + apply fold_max_ge_init.
    + eapply Qle_trans; [exact Hle | apply fold_max_ge_init].
Qed.

(** [max] of a non-empty sequence bounds every element. *)
Lemma py_max_upper (l : list Q) (x : Q) :
  In x l -> exists m, py_max l = Value m /\ x <= m.
Proof.
  destruct l as [|a xs]; simpl; [contradiction|].
  intros [->|Hin]; eexists; split; try reflexivity.
  - apply fold_max_ge_init.
  - now apply fold_max_ge_elem.
Qed.

Lemma fixing_value_in (specs : product_specs) (d : Z) (v : Q) :
  fixings specs !! d = Some v -> In v (fixing_values specs).
Proof.
  intros H. unfold fixing_values.
  apply (in_map snd _ (d, v)).
  apply list_elem_of_In. now apply elem_of_map_to_list.
Qed.

(** C5. When the valuation date is on or after the last coupon date the
    price is exactly 0, whatever the path generator, the process and the
    number of paths are: no path is drawn or read. *)
Theorem matured_note_prices_to_zero
    (specs : product_specs) (heston_process : Process) (num_paths last : Z) :
  index_last (coupon_dates specs) = Value last ->
  (last <= valuation_date self)%Z ->
  price_autocallable_note Process discount path_generator self specs
    heston_process num_paths = Value (Num 0).
Proof.
  intros Hlast Hle. unfold price_autocallable_note.
  rewrite Hlast. simpl.
  apply Z.leb_le in Hle. now rewrite Hle.
Qed.

(** C6. When the valuation date is at or after the first coupon date and
    before the last one, and some already-fixed level is at least
    autocall_barrier x strike, the price is exactly 0. *)
Theorem already_autocalled_prices_to_zero
    (specs : product_specs) (heston_process : Process)
    (num_paths first last d : Z) (v : Q) :
  index_first (coupon_dates specs) = Value first ->
  index_last (coupon_dates specs) = Value last ->
  (first <= valuation_date self)%Z ->
  (valuation_date self < last)%Z ->
  fixings specs !! d = Some v ->
  autocall_barrier specs * strike_price self <= v ->
  price_autocallable_note Process discount path_generator self specs
    heston_process num_paths = Value (Num 0).
Proof.
  intros Hfirst Hlast Hge Hlt Hfix Hbar. unfold price_autocallable_note.
  rewrite Hlast. simpl.
  apply Z.leb_gt in Hlt. rewrite Hlt.
  unfold already_autocalled. rewrite Hfirst. simpl.
  apply Z.leb_le in Hge. rewrite Hge.
  destruct (py_max_upper _ _ (fixing_value_in _ _ _ Hfix)) as (m & Hm & Hvm).
  rewrite Hm. simpl.
  now rewrite (Qle_bool_true _ _ (Qle_trans _ _ _ Hbar Hvm)).
Qed.

(** C10 (as amended). When the valuation date is at or after the first
    coupon date and before the last one, and the past-fixings mapping is
    empty, the call fails with the [ValueError] of [max] on an empty
    sequence: no price is returned. *)
Theorem empty_fixings_after_first_coupon_raise
    (specs : product_specs) (heston_process : Process)
    (num_paths first last : Z) :
  index_first (coupon_dates specs) = Value first ->
  index_last (coupon_dates specs) = Value last ->
  (first <= valuation_date self)%Z ->
  (valuation_date self < last)%Z ->
  fixings specs = ∅ ->
  price_autocallable_note Process discount path_generator self specs
    heston_process num_paths = Raise ValueError.
Proof.
  intros Hfirst Hlast Hge Hlt Hempty. unfold price_autocallable_note.
  rewrite Hlast. simpl.
  apply Z.leb_gt in Hlt. rewrite Hlt.
  unfold already_autocalled. rewrite Hfirst. simpl.
  apply Z.leb_le in Hge. rewrite Hge.
  unfold fixing_values. rewrite Hempty, map_to_list_empty. reflexivity.
Qed.

(** *** Non-negativity of the price *)

Lemma traverse_length {A B : Type} (f : A -> result B) (l : list A) (r : list B) :
  traverse f l = Value r -> length r = length l.
Proof.
  revert r. induction l as [|a l IH]; intros r; simpl.
  - now intros [= <-].
  - destruct (f a) as [b|e]; simpl; [|discriminate].
    destruct (traverse f l) as [bs|e]; simpl; [|discriminate].
    intros [= <-]. simpl. now rewrite (IH bs).
Qed.

(** A batch that is returned has [num_paths] rows. *)
Lemma generate_paths_rows (observation_dates : list Z) (heston_process : Process)
    (num_paths : Z) (batch : list (list Q)) :
  generate_paths Process path_generator observation_dates heston_process num_paths
    = Value batch ->
  (0 <= num_paths)%Z /\ length batch = Z.to_nat num_paths.
Proof.
  unfold generate_paths.
  destruct (path_generator _ _ _) as [draw|e]; simpl; [|discriminate].
  destruct (num_paths <? 0)%Z eqn:Hneg; [discriminate|].
  intros H. apply traverse_length in H. rewrite length_seq in H.
  apply Z.ltb_ge in Hneg. now split.
Qed.

Lemma build_paths_rows (specs : product_specs) (heston_process : Process)
    (num_paths : Z) (paths : list (list Q)) :
  build_paths Process path_generator self specs heston_process num_paths
    = Value paths ->
  (0 <= num_paths)%Z /\ length paths = Z.to_nat num_paths.
Proof.
  unfold build_paths.
  destruct (generate_paths _ _ _ _ _) as [batch|e] eqn:Hgen; simpl; [|discriminate].
  apply generate_paths_rows in Hgen. destruct Hgen as [Hpos Hlen].
  destruct (List.filter _ _) as [|d ds].
  - intros [= <-]. now rewrite length_map.
  - destruct (traverse _ _) as [past|e]; simpl; [|discriminate].
    intros [= <-]. now rewrite !length_map.
Qed.

Lemma Qsum_acc_nonneg (l : list Q) (a : Q) :
  0 <= a -> (forall x, In x l -> 0 <= x) -> 0 <= fold_left Qplus l a.
Proof.
  revert a. induction l as [|y l IH]; intros a Ha Hl; simpl.
  - exact Ha.
  - apply IH.
    + assert (0 <= y) by (apply Hl; now left). lra.
    + intros x Hx. apply Hl. now right.
Qed.

Lemma np_mean_nonneg (l : list Q) (v : Q) :
  (forall x, In x l -> 0 <= x) -> np_mean l = Num v -> 0 <= v.
Proof.
  intros Hl. destruct l as [|a l]; [discriminate|].
  unfold np_mean. intros [= <-]. unfold Qdiv.
  apply Qmult_le_0_compat.
  - apply Qsum_acc_nonneg; [apply Qle_refl | exact Hl].
  - apply Qinv_le_0_compat. change 0 with (inject_Z 0).
    rewrite <- Zle_Qle. lia.
Qed.

Section NonNegative.

Variable specs : product_specs.
Variable expiration_date : Z.

Hypothesis notional_pos : 0 < notional specs.
Hypothesis coupon_rate_nonneg : 0 <= coupon_rate specs.
Hypothesis final_payoff_nonneg : forall x, 0 <= final_payoff self specs x.
Hypothesis discount_nonneg : forall d, 0 <= discount d.

Lemma coupon_multiple_nonneg (u : Z) : (0 <= u)%Z -> 0 <= coupon_multiple specs u.
Proof.
  intros Hu. unfold coupon_multiple, memory_factor.
  change 0 with (inject_Z 0). rewrite <- Zle_Qle.
  destruct (has_memory specs); lia.
Qed.

Lemma observation_payoff_nonneg (u d : Z) (lvl : Q) :
  (0 <= u)%Z ->
  0 <= fst (fst (observation_payoff self specs expiration_date u d lvl))
  /\ (0 <= snd (fst (observation_payoff self specs expiration_date u d lvl)))%Z.
Proof.
  intros Hu.
  pose proof (coupon_multiple_nonneg u Hu) as Hm.
  pose proof (Qmult_le_0_compat _ _ coupon_rate_nonneg Hm) as Hcm.
  pose proof (Qlt_le_weak _ _ notional_pos) as Hn.
  unfold observation_payoff.
  destruct (d =? expiration_date)%Z.
  - destruct (Qle_bool (coupon_barrier specs) lvl); simpl.
    + split; [|exact Hu]. apply Qmult_le_0_compat; [exact Hn | lra].
    + destruct (Qle_bool (protection_barrier specs) lvl); simpl.
      * split; [exact Hn | exact Hu].
      * split; [|exact Hu].
        apply Qmult_le_0_compat; [exact Hn | apply final_payoff_nonneg].
  - destruct (Qle_bool (autocall_barrier specs) lvl); simpl.
    + split; [|exact Hu]. apply Qmult_le_0_compat; [exact Hn | lra].
    + destruct (Qle_bool (coupon_barrier specs) lvl); simpl.
      * split; [|lia]. apply Qmult_le_0_compat; [exact Hn | exact Hcm].
      * split; [apply Qle_refl | lia].
Qed.

Lemma observe_nonneg (st : path_state) (d : Z) (lvl : Q) :
  state_nonneg st ->
  state_nonneg (observe discount self specs expiration_date st d lvl).
Proof.
  intros [Hpv Hu]. unfold observe.
  destruct (observation_payoff_nonneg (unpaid_coupons st) d lvl Hu) as [Hp Hu'].
  destruct (observation_payoff _ _ _ _ _ _) as [[payoff unpaid] called].
  simpl in *. split; [|exact Hu']. simpl. unfold credit.
  destruct (valuation_date self <? d)%Z; [|exact Hpv].
  pose proof (Qmult_le_0_compat _ _ Hp (discount_nonneg d)). lra.
Qed.

Lemma walk_nonneg (obs : list (Z * Q)) (st : path_state) :
  state_nonneg st ->
  state_nonneg (walk discount self specs expiration_date st obs).
Proof.
  revert st. induction obs as [|[d lvl] rest IH]; intros st Hst; simpl.
  - exact Hst.
  - destruct (has_been_called st); [exact Hst|].
    apply IH. now apply observe_nonneg.
Qed.

Lemma path_pv_nonneg (path : list Q) :
  0 <= path_pv discount self specs expiration_date path.
Proof.
  unfold path_pv. apply walk_nonneg. split; simpl; [apply Qle_refl | lia].
Qed.

End NonNegative.

(** C9. For a product with positive notional, non-negative coupon rate
    and a terminal payoff function bounded below by 0, valued on a curve
    whose discount factors are non-negative, the value returned by
    [price_autocallable_note] for a batch of at least one path is a
    non-negative number. *)
Theorem price_non_negative
    (specs : product_specs) (heston_process : Process) (num_paths : Z)
    (value : pyfloat) :
  0 < notional specs ->
  0 <= coupon_rate specs ->
  (forall x, 0 <= final_payoff self specs x) ->
  (forall d, 0 <= discount d) ->
  (0 < num_paths)%Z ->
  price_autocallable_note Process discount path_generator self specs
    heston_process num_paths = Value value ->
  exists v : Q, value = Num v /\ 0 <= v.
Proof.
  intros Hn Hc Hf Hd Hpaths. unfold price_autocallable_note.
  destruct (index_last (coupon_dates specs)) as [last|e]; simpl; [|discriminate].
  destruct (last <=? valuation_date self)%Z.
  { intros [= <-]. exists 0. split; [reflexivity | apply Qle_refl]. }
  destruct (already_autocalled self specs) as [called|e]; simpl; [|discriminate].
  destruct called.
  { intros [= <-]. exists 0. split; [reflexivity | apply Qle_refl]. }
  destruct (build_paths _ _ _ _ _ _) as [paths|e] eqn:Hbuild; simpl; [|discriminate].
  apply build_paths_rows in Hbuild. destruct Hbuild as [_ Hlen].
  intros [= <-].
  destruct (np_mean (List.map (path_pv discount self specs last) paths))
    as [v|] eqn:Hmean.
  - exists v. split; [reflexivity|].
    refine (np_mean_nonneg _ _ _ Hmean).
    intros x Hx. apply in_map_iff in Hx. destruct Hx as (row & <- & _).
    now apply path_pv_nonneg.
  - destruct paths as [|row paths]; [simpl in Hlen; lia | discriminate].
Qed.

(** With no path at all the mean of the empty array is [nan]. *)
Lemma price_of_no_path (specs : product_specs) (heston_process : Process)
    (value : pyfloat) :
  price_autocallable_note Process discount path_generator self specs
    heston_process 0 = Value value ->
  value = Num 0 \/ value = NaN.
Proof.
  unfold price_autocallable_note.
  destruct (index_last (coupon_dates specs)) as [last|e]; simpl; [|discriminate].
  destruct (last <=? valuation_date self)%Z; [intros [= <-]; now left|].
  destruct (already_autocalled self specs) as [called|e]; simpl; [|discriminate].
  destruct called; [intros [= <-]; now left|].
  destruct (build_paths _ _ _ _ _ _) as [paths|e] eqn:Hbuild; simpl; [|discriminate].
  apply build_paths_rows in Hbuild. destruct Hbuild as [_ Hlen].
  destruct paths; [|discriminate]. intros [= <-]. now right.
Qed.

(** *** The price is returned *)

Lemma traverse_total {A B : Type} (f : A -> result B) (l : list A) :
  (forall a, In a l -> exists b, f a = Value b) ->
  exists r, traverse f l = Value r.
Proof.
  induction l as [|a l IH]; intros Hf; simpl.
  - now exists nil.
  - destruct (Hf a) as [b Hb]; [now left|].
    destruct IH as [bs Hbs]; [intros x Hx; apply Hf; now right|].
    rewrite Hb, Hbs. simpl. now eexists.
Qed.

Lemma index_last_nonempty {A : Type} (l : list A) :
  l <> nil -> exists x, index_last l = Value x.
Proof.
  intros Hne. unfold index_last.
  destruct (List.rev l) as [|x xs] eqn:Hrev; [|now exists x].
  exfalso. apply Hne. apply (f_equal (@List.rev A)) in Hrev.
  now rewrite rev_involutive in Hrev.
Qed.

(** X12. For a non-empty schedule, a generator that accepts the time grid and
    draws one level per grid point, at least one path, and a fixing for
    every coupon date on or before the valuation date,
    [price_autocallable_note] returns a number. *)
Lemma price_returns_a_number
    (specs : product_specs) (heston_process : Process) (num_paths : Z)
    (draw : nat -> list Q) :
  let observation_dates :=
    valuation_date self
      :: List.filter (fun d => (valuation_date self <? d)%Z) (coupon_dates specs) in
  coupon_dates specs <> nil ->
  path_generator heston_process (time_grid_of observation_dates)
    (grid_steps (length (time_grid_of observation_dates))) = Value draw ->
  (forall i, length (draw i) = length (time_grid_of observation_dates)) ->
  (0 < num_paths)%Z ->
  (forall d, In d (coupon_dates specs) -> (d <= valuation_date self)%Z ->
     exists v, fixings specs !! d = Some v) ->
  exists v : Q,
    price_autocallable_note Process discount path_generator self specs
      heston_process num_paths = Value (Num v).
Proof.
  intros observation_dates Hne Hgen Hshape Hpaths Hfix.
  unfold price_autocallable_note.
  destruct (index_last_nonempty _ Hne) as [last ->]. simpl.
  destruct (last <=? valuation_date self)%Z; [now exists 0|].
  assert (Hcalled : exists called, already_autocalled self specs = Value called).
  { unfold already_autocalled.
    destruct (coupon_dates specs) as [|first ds] eqn:Hcd; [contradiction|]. simpl.
    destruct (first <=? valuation_date self)%Z eqn:Hle; [|now eexists].
    apply Z.leb_le in Hle.
    destruct (Hfix first) as [v Hv]; [now left | exact Hle |].
    destruct (py_max_upper _ _ (fixing_value_in _ _ _ Hv)) as (m & -> & _).
    simpl. now eexists. }
  destruct Hcalled as [called ->]. simpl.
  destruct called; [now exists 0|].
  assert (Hbatch : exists batch,
    generate_paths Process path_generator observation_dates heston_process num_paths
      = Value batch).
  { unfold generate_paths. rewrite Hgen. simpl.
    assert (Hnn : (num_paths <? 0)%Z = false) by (apply Z.ltb_ge; lia).
    rewrite Hnn. apply traverse_total. intros i _.
    exists (draw i). unfold assign_row. now rewrite Hshape, Nat.eqb_refl. }
  destruct Hbatch as [batch Hbatch].
  assert (Hbuilt : exists paths,
    build_paths Process path_generator self specs heston_process num_paths
      = Value paths).
  { unfold build_paths. fold observation_dates. rewrite Hbatch. simpl.
    destruct (List.filter (fun d => (d <=? valuation_date self)%Z) (coupon_dates specs))
      as [|d ds] eqn:Hpast; [now eexists|].
    destruct (traverse_total (fixing_at specs) (d :: ds)) as [past Hpastv].
    { intros x Hx. rewrite <- Hpast in Hx. apply filter_In in Hx.
      destruct Hx as [Hin Hle]. apply Z.leb_le in Hle.
      destruct (Hfix x Hin Hle) as [v Hv].
      exists v. unfold fixing_at. now rewrite Hv. }
    rewrite Hpastv. simpl. now eexists. }
  destruct Hbuilt as [paths Hbuilt]. rewrite Hbuilt. simpl.
  apply build_paths_rows in Hbuilt. destruct Hbuilt as [_ Hlen].
  destruct paths as [|row paths]; [simpl in Hlen; lia|].
  simpl. now eexists.
Qed.

End PricingFacts.

Lemma matured_note_prices_to_zero_witness :
  HestonPricer.price_autocallable_note unit no_discounting
    (fixed_generator sample_path) pricer_at_maturity (athena None) tt 5
  = Value (Num 0).
Proof.
  apply (matured_note_prices_to_zero unit no_discounting
           (fixed_generator sample_path) pricer_at_maturity (athena None) tt 5 720).
  - reflexivity.
  - simpl. lia.
Defined.

Lemma already_autocalled_prices_to_zero_witness :
  HestonPricer.price_autocallable_note unit no_discounting
    (fixed_generator sample_path) pricer_after_first
    (athena (Some {[ 180%Z := 100%Q ]})) tt 5
  = Value (Num 0).
Proof.
  apply (already_autocalled_prices_to_zero unit no_discounting
           (fixed_generator sample_path) pricer_after_first
           (athena (Some {[ 180%Z := 100%Q ]})) tt 5 180 720 180 100).
  - reflexivity.
  - reflexivity.
  - simpl. lia.
  - simpl. lia.
  - vm_compute. reflexivity.
  - vm_compute. discriminate.
Defined.

Lemma empty_fixings_after_first_coupon_raise_witness :
  HestonPricer.price_autocallable_note unit no_discounting
    (fixed_generator sample_path) pricer_after_first (athena (Some ∅)) tt 5
  = Raise ValueError.
Proof.
  apply (empty_fixings_after_first_coupon_raise unit no_discounting
           (fixed_generator sample_path) pricer_after_first
           (athena (Some ∅)) tt 5 180 720).
  - reflexivity.
  - reflexivity.
  - simpl. lia.
  - simpl. lia.
  - reflexivity.
Defined.

(** C10, as stated, fails on the last coupon date: the valuation date is
    then at or after the first coupon date, the past-fixings mapping may be
    empty, and the earlier maturity test returns 0 before [max] is
    reached. *)
Lemma empty_fixings_at_maturity_price_zero :
  index_first (HestonPricer.coupon_dates (athena (Some ∅))) = Value 180%Z
  /\ (180 <= HestonPricer.valuation_date pricer_at_maturity)%Z
  /\ HestonPricer.fixings (athena (Some ∅)) = ∅
  /\ HestonPricer.price_autocallable_note unit no_discounting
       (fixed_generator sample_path) pricer_at_maturity (athena (Some ∅)) tt 5
     = Value (Num 0).
Proof.
  repeat split. simpl. lia.
Qed.

Lemma price_non_negative_witness :
  exists v : Q, Num (3300000000 # 3000000) = Num v /\ (0 <= v)%Q.
Proof.
  apply (price_non_negative unit no_discounting (fixed_generator sample_path)
           pricer0 recovery_note tt 3).
  - reflexivity.
  - discriminate.
  - intros x. discriminate.
  - intros d. discriminate.
  - lia.
  - vm_compute. reflexivity.
Defined.

Section SimulatorFacts.

Import HestonPricer.

Variable Process : Type.
Variable path_generator : Process -> list Q -> Z -> result (nat -> list Q).

(** C7 (as amended). [generate_paths] checks nothing itself.  An error of
    the external generator construction on the derived time grid
    propagates; once the construction has succeeded, a negative path
    count fails with [ValueError] (the array allocation) and a path count
    of 0 returns the empty batch. *)
Theorem generate_paths_validation
    (observation_dates : list Z) (heston_process : Process) (num_paths : Z) :
  let time_grid := time_grid_of observation_dates in
  let build := path_generator heston_process time_grid
                 (grid_steps (length time_grid)) in
  (forall e, build = Raise e ->
     generate_paths Process path_generator observation_dates heston_process
       num_paths = Raise e)
  /\ (forall draw, build = Value draw -> (num_paths < 0)%Z ->
     generate_paths Process path_generator observation_dates heston_process
       num_paths = Raise ValueError)
  /\ (forall draw, build = Value draw -> num_paths = 0%Z ->
     generate_paths Process path_generator observation_dates heston_process
       num_paths = Value nil).
Proof.
  intros time_grid build. unfold generate_paths. fold time_grid. fold build.
  repeat split.
  - intros e ->. reflexivity.
  - intros draw -> Hneg. simpl. apply Z.ltb_lt in Hneg. now rewrite Hneg.
  - intros draw -> ->. reflexivity.
Qed.

End SimulatorFacts.

Lemma generate_paths_validation_witness :
  HestonPricer.generate_paths unit (fixed_generator sample_path)
    (0 :: 180 :: nil)%Z tt (-1) = Raise ValueError.
Proof.
  apply (proj1 (proj2 (generate_paths_validation unit (fixed_generator sample_path)
                         (0 :: 180 :: nil)%Z tt (-1)))
           (fun _ => sample_path)).
  - reflexivity.
  - lia.
Defined.

(** C7, as stated, fails for a path count of 0 on a strictly increasing
    two-point grid: the empty batch is returned and nothing is raised. *)
Lemma generate_paths_zero_paths_no_error :
  HestonPricer.generate_paths unit (fixed_generator sample_path)
    (0 :: 180 :: nil)%Z tt 0 = Value nil
  /\ ~ (exists e, HestonPricer.generate_paths unit (fixed_generator sample_path)
                    (0 :: 180 :: nil)%Z tt 0 = Raise e).
Proof.
  split; [reflexivity|]. intros [e He]. discriminate He.
Qed.

(** The time grid has one entry per observation date. *)
Lemma time_grid_of_length (observation_dates : list Z) :
  length (HestonPricer.time_grid_of observation_dates) = length observation_dates.
Proof.
  destruct observation_dates as [|d0 ds]; [reflexivity|].
  unfold HestonPricer.time_grid_of. now rewrite length_map.
Qed.

(** ** Calibration *)

Section CalibrationFacts.

Import Optimize.
Local Open Scope R_scope.

Variable calibrationError : helper -> params -> R.

(** What a list comprehension that returns has computed, element by
    element. *)
Lemma traverse_Forall2 {A B : Type} (f : A -> result B) (l : list A) (r : list B) :
  traverse f l = Value r -> Forall2 (fun a b => f a = Value b) l r.
Proof.
  revert r. induction l as [|a l IH]; intros r; simpl.
  - intros [= <-]. constructor.
  - destruct (f a) as [b|e] eqn:Hfa; simpl; [|discriminate].
    destruct (traverse f l) as [bs|e]; simpl; [|discriminate].
    intros [= <-]. constructor; [exact Hfa | now apply IH].
Qed.

Lemma enumerate_length {A : Type} (l : list A) : length (enumerate l) = length l.
Proof. unfold enumerate. rewrite length_combine, length_seq. lia. Qed.

Lemma concat_uniform_length {A : Type} (n : nat) (rows : list (list A)) :
  Forall (fun row => length row = n) rows ->
  length (concat rows) = (length rows * n)%nat.
Proof.
  induction 1 as [|row rows Hrow _ IH]; simpl; [reflexivity|].
  rewrite length_app, IH, Hrow. reflexivity.
Qed.

(** X18. One helper is built per (expiry, strike) pair of the surface. *)
Lemma build_helpers_count (valuation_date : Z) (expirations : list Z)
    (strikes : list R) (market_vols : list (list R)) (helpers : list helper) :
  build_helpers valuation_date expirations strikes market_vols = Value helpers ->
  length helpers = (length expirations * length strikes)%nat.
Proof.
  unfold build_helpers.
  destruct (traverse _ (enumerate expirations)) as [rows|e] eqn:Hrows;
    simpl; [|discriminate].
  intros [= <-].
  pose proof (traverse_length _ _ _ Hrows) as Hlen.
  rewrite enumerate_length in Hlen.
  rewrite (concat_uniform_length (length strikes)); [now rewrite Hlen|].
  apply traverse_Forall2 in Hrows.
  clear Hlen. induction Hrows as [|[i expiry] row ies rows Hrow _ IH];
    constructor; [|exact IH].
  apply traverse_length in Hrow. now rewrite enumerate_length in Hrow.
Qed.

(** [cost_function] of calibration.py is the root of the sum of the
    squared errors of the helpers under the vector it is called with, and
    leaves that vector in the model. *)
Lemma cost_function_root_sum_squares (helpers : list helper) (p m : params) :
  cost_function calibrationError helpers p m =
  (sqrt (Rsum (map (fun h => calibrationError h p * calibrationError h p) helpers)), p).
Proof.
  unfold cost_function, errors, bind, setParams, get, ret. simpl.
  now rewrite map_map.
Qed.

(** [objective_function] of heston_pricer.py is the root of the sum of
    the absolute errors. *)
Lemma objective_function_root_sum_abs (helpers : list helper) (p m : params) :
  objective_function calibrationError helpers p m =
  (sqrt (Rsum (map (fun h => Rabs (calibrationError h p)) helpers)), p).
Proof.
  unfold objective_function, errors, bind, setParams, get, ret. simpl.
  now rewrite map_map.
Qed.

(** X17. Once the helpers are built, [calibrate_heston_model] of
    calibration.py goes by what the optimizer returns: when [ql.Array]
    accepts the reported vector, the returned model holds its entries and
    the vector itself is returned as [calibrated_params]; when [ql.Array]
    raises on it (line 63) the call fails with that exception; and an
    exception raised by the optimizer is let through. *)
Lemma calibration_applies_optimizer_result
    (vector : Type) (ql_Array : vector -> result params) (valuation_date : Z)
    (v0 kappa theta sigma rho : R)
    (expirations : list Z) (strikes : list R) (market_vols : list (list R))
    (optimizer : (vector -> State (result R)) -> bounds -> State (result vector))
    (helpers : list helper) (outcome : result vector) (model1 : params) :
  build_helpers valuation_date expirations strikes market_vols = Value helpers ->
  optimizer (calibration.cost_function calibrationError vector ql_Array helpers)
    calibration.default_bounds (v0 :: kappa :: theta :: sigma :: rho :: nil)
    = (outcome, model1) ->
  let returned :=
    calibration.calibrate_heston_model calibrationError vector ql_Array
      valuation_date (v0 :: kappa :: theta :: sigma :: rho :: nil)
      expirations strikes market_vols optimizer in
  (forall x best, outcome = Value x -> ql_Array x = Value best ->
     returned = Value (best, x))
  /\ (forall x e, outcome = Value x -> ql_Array x = Raise e -> returned = Raise e)
  /\ (forall e, outcome = Raise e -> returned = Raise e).
Proof.
  intros Hh Hopt returned. subst returned.
  unfold calibration.calibrate_heston_model.
  rewrite Hh. simpl. rewrite Hopt.
  repeat split.
  - intros x best -> Hx. simpl. now rewrite Hx.
  - intros x e -> Hx. simpl. now rewrite Hx.
  - intros e ->. reflexivity.
Qed.

(** After an optimizer has asked for [objective_function] at least once,
    the model holds the vector of the last evaluation. *)
Lemma run_optimizer_leaves_last_evaluation (helpers : list helper)
    (p : params) (k : R -> optimizer_run) (m : params) :
  exists v : R,
    run_optimizer (Evaluate p k) (objective_function calibrationError helpers) m =
    run_optimizer (k v) (objective_function calibrationError helpers) p.
Proof.
  eexists. simpl. unfold bind at 1.
  rewrite objective_function_root_sum_abs. reflexivity.
Qed.

End CalibrationFacts.

(** C1 (defect in heston_pricer.py). With an optimizer that evaluates the
    objective at [candidate_a] and then at [candidate_b] and reports
    [candidate_a] as its best vector, [HestonPricer.calibrate_heston_model]
    returns a model that holds [candidate_b], the last vector evaluated:
    the optimizer's result is dropped and never applied. *)
Theorem pricer_calibration_drops_optimizer_result :
  let objective :=
    Optimize.objective_function error_four (one_helper :: nil) in
  Optimize.build_helpers 0 (HestonPricer.expiration_dates one_quote)
    (HestonPricer.strikes one_quote) (HestonPricer.volatilities one_quote)
    = Value (one_helper :: nil)
  /\ fst (two_probes objective calibration.default_bounds guess) = candidate_a
  /\ HestonPricer.calibrate_heston_model error_four pricer0 one_quote guess
       calibration.default_bounds two_probes = Value candidate_b
  /\ candidate_b <> candidate_a.
Proof.
  repeat split.
  intros H. injection H as H _. lra.
Qed.

(** C2 (defect in heston_pricer.py). With a single helper whose calibration
    error is 4, [objective_function] evaluates to 2, the root of the sum of
    the absolute errors, while the root of the sum of the squared errors,
    which [cost_function] of calibration.py returns, is 4. *)
Theorem pricer_objective_not_root_sum_squares :
  fst (Optimize.objective_function error_four (one_helper :: nil) guess guess) = 2%R
  /\ fst (Optimize.cost_function error_four (one_helper :: nil) guess guess) = 4%R
  /\ sqrt (Optimize.Rsum
             (map (fun h => error_four h guess * error_four h guess)%R
                (one_helper :: nil))) = 4%R.
Proof.
  rewrite objective_function_root_sum_abs, cost_function_root_sum_squares.
  unfold error_four, Optimize.Rsum. simpl.
  assert (H4 : sqrt (4 * 4 + 0) = 4%R).
  { rewrite Rplus_0_r. apply sqrt_square. lra. }
  repeat split; try exact H4.
  rewrite Rabs_pos_eq by lra. rewrite Rplus_0_r.
  replace 4%R with (2 * 2)%R by lra. apply sqrt_square. lra.
Qed.

(** * Further properties of the payoff engine *)

Section PathFacts.

Import HestonPricer.
Local Open Scope Q_scope.

Variable discount : Z -> Q.
Variable self : pricer.
Variable specs : product_specs.
Variable expiration_date : Z.

(** The loop over a concatenation, one run after the other. *)
Lemma walk_app (st : path_state) (a b : list (Z * Q)) :
  walk discount self specs expiration_date st (a ++ b) =
  walk discount self specs expiration_date
    (walk discount self specs expiration_date st a) b.
Proof.
  revert st. induction a as [|[d lvl] a IH]; intros st; simpl; [reflexivity|].
  destruct (has_been_called st) eqn:Hc; [|apply IH].
  symmetry. now apply walk_called.
Qed.

(** X24. The loop over two consecutive runs of observations is the loop
    over the second run started from the state the first run ends in, the
    break on a called path included. *)
Theorem observation_runs_compose (st : path_state) (first second : list (Z * Q)) :
  walk discount self specs expiration_date st (first ++ second) =
  walk discount self specs expiration_date
    (walk discount self specs expiration_date st first) second.
Proof.
  revert st. induction first as [|[d lvl] first IH]; intros st; [reflexivity|].
  rewrite <- app_comm_cons.
  destruct (has_been_called st) eqn:Hcalled.
  - now rewrite !(walk_called _ _ _ _ st) by exact Hcalled.
  - rewrite !walk_active by exact Hcalled. apply IH.
Qed.

(** X1. Early redemption: once the observations seen so far have called the
    path, whatever levels follow leave its value, counter and flag
    untouched. *)
Theorem called_path_ignores_later_levels (st : path_state) (seen later : list (Z * Q)) :
  has_been_called (walk discount self specs expiration_date st seen) = true ->
  walk discount self specs expiration_date st (seen ++ later) =
  walk discount self specs expiration_date st seen.
Proof.
  intros Hc. rewrite walk_app. now apply walk_called.
Qed.

(** X2. Observations dated on or before the valuation date add nothing to the
    accumulated present value: they only move the counter and the flag. *)
Theorem past_observations_add_nothing (st : path_state) (obs : list (Z * Q)) :
  (forall d lvl, In (d, lvl) obs -> (d <= valuation_date self)%Z) ->
  total_pv (walk discount self specs expiration_date st obs) = total_pv st.
Proof.
  revert st. induction obs as [|[d lvl] obs IH]; intros st Hpast; simpl; [reflexivity|].
  destruct (has_been_called st); [reflexivity|].
  rewrite IH by (intros d' l' Hin; apply (Hpast d' l'); now right).
  unfold observe.
  destruct (observation_payoff _ _ _ _ _ _) as [[payoff unpaid] called]. simpl.
  unfold credit.
  assert (Hle : (d <= valuation_date self)%Z) by (apply (Hpast d lvl); now left).
  apply Z.ltb_ge in Hle. now rewrite Hle.
Qed.

Lemma payoff_without_memory (u u' d : Z) (lvl : Q) :
  has_memory specs = false ->
  fst (fst (observation_payoff self specs expiration_date u d lvl)) =
  fst (fst (observation_payoff self specs expiration_date u' d lvl))
  /\ snd (observation_payoff self specs expiration_date u d lvl) =
     snd (observation_payoff self specs expiration_date u' d lvl).
Proof.
  intros Hmem.
  assert (Hm : forall x, coupon_multiple specs x = 1).
  { intros x. unfold coupon_multiple, memory_factor. rewrite Hmem.
    now replace (1 + x * 0)%Z with 1%Z by lia. }
  unfold observation_payoff. rewrite !Hm.
  destruct (d =? expiration_date)%Z.
  - destruct (Qle_bool (coupon_barrier specs) lvl); [now split|].
    destruct (Qle_bool (protection_barrier specs) lvl); now split.
  - destruct (Qle_bool (autocall_barrier specs) lvl); [now split|].
    destruct (Qle_bool (coupon_barrier specs) lvl); now split.
Qed.

(** X3. Without the memory feature the counter of unpaid coupons is inert: two
    runs of the loop that start with the same value and flag, whatever
    their counters, end with the same value and flag. *)
Theorem without_memory_counter_is_inert (obs : list (Z * Q)) (st st' : path_state) :
  has_memory specs = false ->
  total_pv st = total_pv st' ->
  has_been_called st = has_been_called st' ->
  total_pv (walk discount self specs expiration_date st obs) =
  total_pv (walk discount self specs expiration_date st' obs)
  /\ has_been_called (walk discount self specs expiration_date st obs) =
     has_been_called (walk discount self specs expiration_date st' obs).
Proof.
  intros Hmem. revert st st'.
  induction obs as [|[d lvl] obs IH]; intros st st' Hpv Hc; simpl; [now split|].
  rewrite <- Hc. destruct (has_been_called st) eqn:Hst; [split; congruence|].
  apply IH; unfold observe;
    destruct (payoff_without_memory (unpaid_coupons st) (unpaid_coupons st') d lvl Hmem)
      as [Hp Hf];
    destruct (observation_payoff self specs expiration_date (unpaid_coupons st) d lvl)
      as [[p1 n1] c1];
    destruct (observation_payoff self specs expiration_date (unpaid_coupons st') d lvl)
      as [[p2 n2] c2]; simpl in *; congruence.
Qed.

(** X4. With non-negative notional payoffs and discount factors the
    accumulated value never goes down as observations are processed. *)
Theorem accumulated_value_never_decreases (obs : list (Z * Q)) (st : path_state) :
  0 < notional specs ->
  0 <= coupon_rate specs ->
  (forall x, 0 <= final_payoff self specs x) ->
  (forall d, 0 <= discount d) ->
  (0 <= unpaid_coupons st)%Z ->
  total_pv st <= total_pv (walk discount self specs expiration_date st obs).
Proof.
  intros Hn Hc Hf Hd. revert st.
  induction obs as [|[d lvl] obs IH]; intros st Hu; simpl; [apply Qle_refl|].
  destruct (has_been_called st); [apply Qle_refl|].
  destruct (observation_payoff_nonneg self specs expiration_date Hn Hc Hf
              (unpaid_coupons st) d lvl Hu) as [Hp Hu'].
  eapply Qle_trans; [|apply IH].
  - unfold observe.
    destruct (observation_payoff _ _ _ _ _ _) as [[payoff unpaid] called].
    simpl in *. unfold credit.
    destruct (valuation_date self <? d)%Z; [|apply Qle_refl].
    pose proof (Qmult_le_0_compat _ _ Hp (Hd d)). lra.
  - unfold observe.
    destruct (observation_payoff _ _ _ _ _ _) as [[payoff unpaid] called].
    exact Hu'.
Qed.

(** X5. Capital protection: at the expiration date a level at or above the
    coupon barrier or the protection barrier pays at least the notional;
    the autocall barrier plays no part, the path is not marked called and
    the counter is left as it is. *)
Theorem principal_protected_at_expiration (u : Z) (lvl : Q) :
  0 <= notional specs ->
  0 <= coupon_rate specs ->
  (0 <= u)%Z ->
  coupon_barrier specs <= lvl \/ protection_barrier specs <= lvl ->
  exists payoff : Q,
    observation_payoff self specs expiration_date u expiration_date lvl
      = (payoff, u, false)
    /\ notional specs <= payoff.
Proof.
  intros Hn Hc Hu Hlvl. unfold observation_payoff. rewrite Z.eqb_refl.
  assert (Hm : 0 <= coupon_multiple specs u).
  { unfold coupon_multiple, memory_factor.
    change 0 with (inject_Z 0). rewrite <- Zle_Qle.
    destruct (has_memory specs); lia. }
  pose proof (Qmult_le_0_compat _ _ Hc Hm) as Hcm.
  destruct (Qle_bool (coupon_barrier specs) lvl) eqn:Hcb.
  - eexists. split; [reflexivity|].
    pose proof (Qmult_le_0_compat _ _ Hn Hcm). lra.
  - destruct Hlvl as [Hl|Hl].
    + apply Qle_bool_iff in Hl. congruence.
    + rewrite (Qle_bool_true _ _ Hl). eexists. split; [reflexivity | apply Qle_refl].
Qed.

End PathFacts.

(** ** An upper bound on the price *)

Section BudgetFacts.

Import HestonPricer.
Local Open Scope Q_scope.

Variable discount : Z -> Q.
Variable self : pricer.
Variable specs : product_specs.
Variable expiration_date : Z.

Hypothesis notional_nonneg : 0 <= notional specs.
Hypothesis coupon_rate_nonneg : 0 <= coupon_rate specs.
Hypothesis discount_unit : forall d, 0 <= discount d /\ discount d <= 1.
Hypothesis final_payoff_unit :
  forall lvl, lvl < protection_barrier specs ->
    final_payoff self specs (lvl * strike_price self) <= 1.

Lemma inject_Z_succ (k : Z) : inject_Z (k + 1) == inject_Z k + 1.
Proof. now rewrite inject_Z_plus. Qed.

Lemma inject_Z_sub (k u : Z) : inject_Z (k - u) == inject_Z k - inject_Z u.
Proof. unfold Z.sub. now rewrite inject_Z_plus, inject_Z_opp. Qed.

Lemma inject_Z_nonneg (k : Z) : (0 <= k)%Z -> 0 <= inject_Z k.
Proof. intros H. change 0 with (inject_Z 0). now rewrite <- Zle_Qle. Qed.

(** The coupon multiple is between 0 and one more than the counter. *)
Lemma coupon_multiple_range (u : Z) :
  (0 <= u)%Z ->
  0 <= coupon_multiple specs u /\ coupon_multiple specs u <= 1 + inject_Z u.
Proof.
  intros Hu. unfold coupon_multiple, memory_factor. split.
  - apply inject_Z_nonneg. destruct (has_memory specs); lia.
  - assert (E : inject_Z (1 + u) == 1 + inject_Z u) by (now rewrite inject_Z_plus).
    rewrite <- E, <- Zle_Qle. destruct (has_memory specs); lia.
Qed.

(** A credited payoff adds at most a non-negative bound on the payoff. *)
Lemma credit_le (pv payoff P : Q) (d : Z) :
  payoff <= P -> 0 <= P ->
  credit discount self pv d payoff <= pv + P.
Proof.
  intros Hp HP. unfold credit. destruct (discount_unit d) as [H0 H1].
  destruct (valuation_date self <? d)%Z; [|lra].
  assert (0 <= (P - payoff) * discount d) by (apply Qmult_le_0_compat; lra).
  assert (0 <= P * (1 - discount d)) by (apply Qmult_le_0_compat; lra).
  lra.
Qed.

Lemma full_payoff_bound (u : Z) :
  (0 <= u)%Z ->
  0 <= notional specs * (1 + coupon_rate specs * coupon_multiple specs u)
  /\ notional specs * (1 + coupon_rate specs * coupon_multiple specs u)
     <= notional specs * (1 + coupon_rate specs * (1 + inject_Z u)).
Proof.
  intros Hu. destruct (coupon_multiple_range u Hu) as [Hm0 Hm1].
  pose proof (Qmult_le_0_compat _ _ notional_nonneg coupon_rate_nonneg) as Hnc.
  assert (0 <= notional specs * coupon_rate specs * coupon_multiple specs u)
    by (apply Qmult_le_0_compat; assumption).
  assert (0 <= notional specs * coupon_rate specs
               * (1 + inject_Z u - coupon_multiple specs u))
    by (apply Qmult_le_0_compat; [assumption | lra]).
  split; lra.
Qed.

Lemma coupon_payoff_bound (u : Z) :
  (0 <= u)%Z ->
  0 <= notional specs * (coupon_rate specs * coupon_multiple specs u)
  /\ notional specs * (coupon_rate specs * coupon_multiple specs u)
     <= notional specs * (coupon_rate specs * (1 + inject_Z u)).
Proof.
  intros Hu. destruct (coupon_multiple_range u Hu) as [Hm0 Hm1].
  pose proof (Qmult_le_0_compat _ _ notional_nonneg coupon_rate_nonneg) as Hnc.
  assert (0 <= notional specs * coupon_rate specs * coupon_multiple specs u)
    by (apply Qmult_le_0_compat; assumption).
  assert (0 <= notional specs * coupon_rate specs
               * (1 + inject_Z u - coupon_multiple specs u))
    by (apply Qmult_le_0_compat; [assumption | lra]).
  split; lra.
Qed.

(** One intermediate observation keeps the budget, with one more
    observation counted. *)
Lemma observe_intermediate_budget (k d : Z) (lvl : Q) (st : path_state) :
  d <> expiration_date ->
  has_been_called st = false ->
  within_budget specs k st ->
  within_budget specs (k + 1)
    (observe discount self specs expiration_date st d lvl).
Proof.
  intros Hd Hact Hb. unfold within_budget in Hb. rewrite Hact in Hb.
  destruct Hb as [[Hu0 Huk] Hpv]. rewrite inject_Z_sub in Hpv.
  pose proof (inject_Z_nonneg _ Hu0) as Hqu.
  assert (Hquk : inject_Z (unpaid_coupons st) <= inject_Z k) by now rewrite <- Zle_Qle.
  pose proof (Qmult_le_0_compat _ _ notional_nonneg coupon_rate_nonneg) as Hnc.
  unfold observe, observation_payoff.
  apply Z.eqb_neq in Hd. rewrite Hd.
  destruct (Qle_bool (autocall_barrier specs) lvl).
  - unfold within_budget. simpl.
    destruct (full_payoff_bound _ Hu0) as [Hp0 Hp1].
    eapply Qle_trans; [apply (credit_le _ _ _ _ (Qle_refl _) Hp0)|].
    rewrite inject_Z_succ. lra.
  - destruct (Qle_bool (coupon_barrier specs) lvl).
    + unfold within_budget. simpl. split; [lia|].
      destruct (coupon_payoff_bound _ Hu0) as [Hp0 Hp1].
      eapply Qle_trans; [apply (credit_le _ _ _ _ (Qle_refl _) Hp0)|].
      rewrite inject_Z_sub, inject_Z_succ. change (inject_Z 0) with 0. lra.
    + unfold within_budget. simpl. split; [lia|].
      eapply Qle_trans; [apply (credit_le _ 0 0 _ (Qle_refl _) (Qle_refl _))|].
      rewrite inject_Z_sub, !inject_Z_succ. lra.
Qed.

(** The budget of a path bounds its value by the notional and one coupon
    per observation counted. *)
Lemma budget_bounds_value (k : Z) (st : path_state) :
  within_budget specs k st ->
  total_pv st <= notional specs * (1 + coupon_rate specs * inject_Z k).
Proof.
  unfold within_budget. destruct (has_been_called st); [tauto|].
  intros [[Hu0 Huk] Hpv]. rewrite inject_Z_sub in Hpv.
  pose proof (inject_Z_nonneg _ Hu0) as Hqu.
  pose proof (Qmult_le_0_compat _ _ notional_nonneg coupon_rate_nonneg) as Hnc.
  assert (0 <= notional specs * coupon_rate specs * inject_Z (unpaid_coupons st))
    by (apply Qmult_le_0_compat; assumption).
  lra.
Qed.

Lemma value_bound_mono (k k' : Z) :
  (k <= k')%Z ->
  notional specs * (1 + coupon_rate specs * inject_Z k)
  <= notional specs * (1 + coupon_rate specs * inject_Z k').
Proof.
  intros Hk. rewrite Zle_Qle in Hk.
  pose proof (Qmult_le_0_compat _ _ notional_nonneg coupon_rate_nonneg) as Hnc.
  assert (0 <= notional specs * coupon_rate specs * (inject_Z k' - inject_Z k))
    by (apply Qmult_le_0_compat; [assumption | lra]).
  lra.
Qed.

(** The observation of the expiration date brings the value to at most the
    notional and one coupon per observation, this one included. *)
Lemma observe_final_value (k : Z) (lvl : Q) (st : path_state) :
  has_been_called st = false ->
  within_budget specs k st ->
  total_pv (observe discount self specs expiration_date st expiration_date lvl)
  <= notional specs * (1 + coupon_rate specs * inject_Z (k + 1)).
Proof.
  intros Hact Hb. unfold within_budget in Hb. rewrite Hact in Hb.
  destruct Hb as [[Hu0 Huk] Hpv]. rewrite inject_Z_sub in Hpv.
  pose proof (inject_Z_nonneg _ Hu0) as Hqu.
  pose proof (Qmult_le_0_compat _ _ notional_nonneg coupon_rate_nonneg) as Hnc.
  assert (Hncu : 0 <= notional specs * coupon_rate specs * inject_Z (unpaid_coupons st))
    by (apply Qmult_le_0_compat; assumption).
  destruct (full_payoff_bound _ Hu0) as [Hp0 Hp1].
  assert (Hany : forall payoff,
    payoff <= notional specs * (1 + coupon_rate specs * coupon_multiple specs (unpaid_coupons st)) ->
    credit discount self (total_pv st) expiration_date payoff
    <= notional specs * (1 + coupon_rate specs * inject_Z (k + 1))).
  { intros payoff Hle.
    eapply Qle_trans; [apply (credit_le _ _ _ _ Hle Hp0)|].
    rewrite inject_Z_succ. lra. }
  destruct (coupon_multiple_range _ Hu0) as [Hm0 _].
  assert (Hcm : 0 <= notional specs * coupon_rate specs
                     * coupon_multiple specs (unpaid_coupons st))
    by (apply Qmult_le_0_compat; assumption).
  unfold observe, observation_payoff. rewrite Z.eqb_refl.
  destruct (Qle_bool (coupon_barrier specs) lvl); simpl.
  - apply Hany, Qle_refl.
  - destruct (Qle_bool (protection_barrier specs) lvl) eqn:Hprot; simpl.
    + apply Hany. lra.
    + apply Hany.
      assert (Hbelow : lvl < protection_barrier specs).
      { apply Qnot_le_lt. intros Hle. apply Qle_bool_iff in Hle. congruence. }
      pose proof (final_payoff_unit lvl Hbelow) as Hf.
      assert (0 <= notional specs * (1 - final_payoff self specs (lvl * strike_price self)))
        by (apply Qmult_le_0_compat; [assumption | lra]).
      lra.
Qed.

(** The loop over observations none of which is dated at the expiration
    date keeps the budget. *)
Lemma walk_intermediate_budget (obs : list (Z * Q)) (k : Z) (st : path_state) :
  (forall d lvl, In (d, lvl) obs -> d <> expiration_date) ->
  within_budget specs k st ->
  within_budget specs (k + Z.of_nat (length obs))
    (walk discount self specs expiration_date st obs).
Proof.
  revert k st. induction obs as [|[d lvl] obs IH]; intros k st Hd Hb.
  - simpl. now rewrite Z.add_0_r.
  - change (walk discount self specs expiration_date st ((d, lvl) :: obs))
      with (if has_been_called st then st
            else walk discount self specs expiration_date
                   (observe discount self specs expiration_date st d lvl) obs).
    destruct (has_been_called st) eqn:Hc.
    + unfold within_budget in *. rewrite Hc in *.
      eapply Qle_trans; [exact Hb | apply value_bound_mono; lia].
    + replace (k + Z.of_nat (length ((d, lvl) :: obs)))%Z
        with (k + 1 + Z.of_nat (length obs))%Z by (simpl length; lia).
      apply IH; [intros d' l' Hin; apply (Hd d' l'); now right|].
      apply observe_intermediate_budget; [apply (Hd d lvl); now left | exact Hc | exact Hb].
Qed.

Lemma combine_snoc {A B : Type} (a : list A) (x : A) (l : list B) :
  combine (a ++ x :: nil) l =
  combine a l ++ match nth_error l (length a) with
                 | Some y => (x, y) :: nil
                 | None => nil
                 end.
Proof.
  revert l. induction a as [|a0 a IH]; intros l; simpl.
  - now destruct l.
  - destruct l as [|y l]; simpl; [reflexivity|]. now rewrite IH.
Qed.

Lemma index_last_snoc {A : Type} (l : list A) (x : A) :
  index_last l = Value x -> exists init, l = init ++ x :: nil.
Proof.
  unfold index_last. destruct (List.rev l) as [|y r] eqn:Hrev; [discriminate|].
  intros [= ->]. exists (List.rev r).
  apply (f_equal (@List.rev A)) in Hrev. rewrite rev_involutive in Hrev.
  now rewrite Hrev.
Qed.

(** The value of a path is at most the notional and one coupon per coupon
    date, when no coupon date is repeated. *)
Lemma path_value_bounded (path : list Q) :
  List.NoDup (coupon_dates specs) ->
  index_last (coupon_dates specs) = Value expiration_date ->
  path_pv discount self specs expiration_date path
  <= notional specs
     * (1 + coupon_rate specs * inject_Z (Z.of_nat (length (coupon_dates specs)))).
Proof.
  intros Hnodup Hlast.
  destruct (index_last_snoc _ _ Hlast) as [init Hcd].
  unfold path_pv. rewrite Hcd in *. clear Hcd Hlast.
  set (levels := List.map (fun x => x / strike_price self) path).
  rewrite combine_snoc, walk_app.
  assert (Hfresh : forall d lvl, In (d, lvl) (combine init levels) -> d <> expiration_date).
  { intros d lvl Hin ->. apply in_combine_l in Hin.
    apply NoDup_remove_2 in Hnodup. apply Hnodup. now rewrite app_nil_r. }
  assert (Hinit : within_budget specs 0 initial_state).
  { unfold within_budget. simpl. split; [lia|]. change (inject_Z (0 - 0)) with 0. lra. }
  pose proof (walk_intermediate_budget _ _ _ Hfresh Hinit) as Hb.
  assert (Hlen : (length (combine init levels) <= length init)%nat)
    by (rewrite length_combine; lia).
  rewrite length_app. simpl length.
  set (st1 := walk discount self specs expiration_date initial_state
                (combine init levels)) in *.
  destruct (nth_error levels (length init)) as [y|].
  - simpl. destruct (has_been_called st1) eqn:Hc.
    + eapply Qle_trans; [apply (budget_bounds_value _ _ Hb)|].
      apply value_bound_mono. lia.
    + eapply Qle_trans; [apply (observe_final_value _ _ _ Hc Hb)|].
      apply value_bound_mono. lia.
  - simpl. eapply Qle_trans; [apply (budget_bounds_value _ _ Hb)|].
    apply value_bound_mono. lia.
Qed.

End BudgetFacts.

Section PriceBound.

Import HestonPricer.
Local Open Scope Q_scope.

Variable Process : Type.
Variable discount : Z -> Q.
Variable path_generator : Process -> list Q -> Z -> result (nat -> list Q).
Variable self : pricer.

Lemma Qsum_acc_le (l : list Q) (a B : Q) :
  (forall x, In x l -> x <= B) ->
  fold_left Qplus l a <= a + B * inject_Z (Z.of_nat (length l)).
Proof.
  revert a. induction l as [|y l IH]; intros a Hl.
  - change (a <= a + B * 0). lra.
  - simpl fold_left.
    eapply Qle_trans; [apply IH; intros x Hx; apply Hl; now right|].
    assert (Hy : y <= B) by (apply Hl; now left).
    replace (Z.of_nat (length (y :: l))) with (Z.of_nat (length l) + 1)%Z
      by (simpl length; lia).
    rewrite inject_Z_succ. lra.
Qed.

Lemma np_mean_le (l : list Q) (B v : Q) :
  (forall x, In x l -> x <= B) -> np_mean l = Num v -> v <= B.
Proof.
  intros Hl. destruct l as [|a l]; [discriminate|].
  unfold np_mean. intros [= <-].
  apply Qle_shift_div_r.
  - change 0 with (inject_Z 0). rewrite <- Zlt_Qlt. simpl length. lia.
  - pose proof (Qsum_acc_le (a :: l) 0 B Hl) as H. unfold Qsum.
    change (length (a :: l)) with (S (length l)) in H. lra.
Qed.

(** X6. The price never exceeds the notional and one coupon per coupon date:
    for a non-negative notional and coupon rate, discount factors in
    [0, 1], a terminal payoff function that is at most 1 on the levels
    below the protection barrier and a schedule without repeated dates, a
    price that is returned as a number is at most
    notional x (1 + coupon_rate x number of coupon dates). *)
Theorem price_at_most_notional_and_coupons
    (specs : product_specs) (heston_process : Process) (num_paths : Z) (v : Q) :
  0 <= notional specs ->
  0 <= coupon_rate specs ->
  (forall d, 0 <= discount d /\ discount d <= 1) ->
  (forall lvl, lvl < protection_barrier specs ->
     final_payoff self specs (lvl * strike_price self) <= 1) ->
  List.NoDup (coupon_dates specs) ->
  price_autocallable_note Process discount path_generator self specs
    heston_process num_paths = Value (Num v) ->
  v <= notional specs
       * (1 + coupon_rate specs * inject_Z (Z.of_nat (length (coupon_dates specs)))).
Proof.
  intros Hn Hc Hd Hf Hnodup.
  assert (Hzero : 0 <= notional specs
            * (1 + coupon_rate specs * inject_Z (Z.of_nat (length (coupon_dates specs))))).
  { apply Qmult_le_0_compat; [exact Hn|].
    assert (0 <= coupon_rate specs * inject_Z (Z.of_nat (length (coupon_dates specs))))
      by (apply Qmult_le_0_compat; [exact Hc | apply inject_Z_nonneg; lia]).
    lra. }
  unfold price_autocallable_note.
  destruct (index_last (coupon_dates specs)) as [last|e] eqn:Hlast; simpl; [|discriminate].
  destruct (last <=? valuation_date self)%Z; [now intros [= <-]|].
  destruct (already_autocalled self specs) as [called|e]; simpl; [|discriminate].
  destruct called; [now intros [= <-]|].
  destruct (build_paths _ _ _ _ _ _) as [paths|e]; simpl; [|discriminate].
  intros [= Hmean]. refine (np_mean_le _ _ _ _ Hmean).
  intros x Hx. apply in_map_iff in Hx. destruct Hx as (row & <- & _).
  now apply path_value_bounded.
Qed.

End PriceBound.

(** ** Errors and edge cases of the pricer *)

Section PricerEdges.

Import HestonPricer.
Local Open Scope Q_scope.

Variable Process : Type.
Variable discount : Z -> Q.
Variable path_generator : Process -> list Q -> Z -> result (nat -> list Q).
Variable self : pricer.

Lemma assign_row_length (n : nat) (row out : list Q) :
  assign_row n row = Value out -> length out = n.
Proof.
  unfold assign_row. destruct (Nat.eqb (length row) n) eqn:Hn.
  - intros [= <-]. now apply Nat.eqb_eq.
  - destruct row as [|x [|y row]]; try discriminate.
    intros [= <-]. apply repeat_length.
Qed.

(** X7. The shape of a batch: [num_paths] rows, one column per observation
    date. *)
Theorem generate_paths_shape (observation_dates : list Z) (heston_process : Process)
    (num_paths : Z) (batch : list (list Q)) :
  generate_paths Process path_generator observation_dates heston_process num_paths
    = Value batch ->
  length batch = Z.to_nat num_paths
  /\ Forall (fun row => length row = length observation_dates) batch.
Proof.
  intros Hgen. split; [exact (proj2 (generate_paths_rows _ _ _ _ _ _ Hgen))|].
  unfold generate_paths in Hgen.
  destruct (path_generator _ _ _) as [draw|e]; simpl in Hgen; [|discriminate].
  destruct (num_paths <? 0)%Z; [discriminate|].
  apply traverse_Forall2 in Hgen. rewrite time_grid_of_length in Hgen.
  induction Hgen as [|i row idx rows Hrow _ IH]; constructor; [|exact IH].
  now apply assign_row_length in Hrow.
Qed.

Lemma py_max_in (l : list Q) (m : Q) : py_max l = Value m -> In m l.
Proof.
  destruct l as [|a xs]; simpl; [discriminate|]. intros [= <-].
  revert a. induction xs as [|y xs IH]; intros a; simpl; [now left|].
  destruct (Qlt_le_dec a y).
  - destruct (IH y) as [H|H]; [right; left; exact H | right; right; exact H].
  - destruct (IH a) as [H|H]; [left; exact H | right; right; exact H].
Qed.

Lemma fixing_value_from (specs : product_specs) (v : Q) :
  In v (fixing_values specs) -> exists d, fixings specs !! d = Some v.
Proof.
  unfold fixing_values. intros H. apply in_map_iff in H.
  destruct H as ([d v'] & Hv & Hin). simpl in Hv. subst v'.
  exists d. apply elem_of_map_to_list. now apply list_elem_of_In.
Qed.

(** X8. From the first coupon date on, the already-autocalled check fires
    exactly when some entry of the past-fixings mapping is at least
    autocall_barrier x strike. *)
Theorem already_autocalled_iff (specs : product_specs) (first : Z) :
  index_first (coupon_dates specs) = Value first ->
  (first <= valuation_date self)%Z ->
  already_autocalled self specs = Value true
  <-> exists d v, fixings specs !! d = Some v
                  /\ autocall_barrier specs * strike_price self <= v.
Proof.
  intros Hfirst Hle. unfold already_autocalled. rewrite Hfirst. simpl.
  apply Z.leb_le in Hle. rewrite Hle. split.
  - destruct (py_max (fixing_values specs)) as [m|e] eqn:Hmax; simpl; [|discriminate].
    intros [= Hb]. apply Qle_bool_iff in Hb.
    destruct (fixing_value_from _ _ (py_max_in _ _ Hmax)) as [d Hd].
    now exists d, m.
  - intros (d & v & Hv & Hbar).
    destruct (py_max_upper _ _ (fixing_value_in _ _ _ Hv)) as (m & -> & Hvm).
    simpl. now rewrite (Qle_bool_true _ _ (Qle_trans _ _ _ Hbar Hvm)).
Qed.

Lemma traverse_raise {A B : Type} (f : A -> result B) (l : list A) (e : exn) (a : A) :
  (forall x e', f x = Raise e' -> e' = e) ->
  In a l -> f a = Raise e ->
  traverse f l = Raise e.
Proof.
  intros Honly. induction l as [|x l IH]; intros Hin Ha; simpl.
  - contradiction.
  - destruct (f x) as [b|e'] eqn:Hx; simpl.
    + destruct Hin as [->|Hin]; [congruence|].
      now rewrite (IH Hin Ha).
    + now rewrite (Honly _ _ Hx).
Qed.

(** X9. A coupon date on or before the valuation date without an entry in the
    past-fixings mapping makes the call fail with [KeyError], once the
    short-circuit tests are passed and the paths have been generated. *)
Theorem missing_past_fixing_raises
    (specs : product_specs) (heston_process : Process) (num_paths last d : Z)
    (batch : list (list Q)) :
  index_last (coupon_dates specs) = Value last ->
  (valuation_date self < last)%Z ->
  already_autocalled self specs = Value false ->
  generate_paths Process path_generator
    (valuation_date self
       :: List.filter (fun c => (valuation_date self <? c)%Z) (coupon_dates specs))
    heston_process num_paths = Value batch ->
  In d (coupon_dates specs) ->
  (d <= valuation_date self)%Z ->
  fixings specs !! d = None ->
  price_autocallable_note Process discount path_generator self specs
    heston_process num_paths = Raise KeyError.
Proof.
  intros Hlast Hlt Hcheck Hgen Hin Hle Hmiss.
  unfold price_autocallable_note. rewrite Hlast. simpl.
  apply Z.leb_gt in Hlt. rewrite Hlt, Hcheck. simpl.
  unfold build_paths. rewrite Hgen. simpl.
  assert (Hpast : In d (List.filter (fun c => (c <=? valuation_date self)%Z)
                          (coupon_dates specs))).
  { apply filter_In. split; [exact Hin | now apply Z.leb_le]. }
  destruct (List.filter (fun c => (c <=? valuation_date self)%Z) (coupon_dates specs))
    as [|c cs]; [contradiction|].
  rewrite (traverse_raise (fixing_at specs) (c :: cs) KeyError d); [reflexivity | | exact Hpast |].
  - intros x e'. unfold fixing_at. destruct (fixings specs !! x); [discriminate|].
    now intros [= <-].
  - unfold fixing_at. now rewrite Hmiss.
Qed.

(** X10. For a note all of whose coupon dates are after the valuation date and
    a generator that accepts the time grid, a path count of 0 gives [nan]
    and a negative path count fails with [ValueError]: neither is priced
    as 0. *)
Theorem price_of_degenerate_path_count
    (specs : product_specs) (heston_process : Process) (num_paths : Z)
    (draw : nat -> list Q) :
  let observation_dates := valuation_date self :: coupon_dates specs in
  coupon_dates specs <> nil ->
  (forall d, In d (coupon_dates specs) -> (valuation_date self < d)%Z) ->
  path_generator heston_process (time_grid_of observation_dates)
    (grid_steps (length (time_grid_of observation_dates))) = Value draw ->
  (num_paths = 0%Z ->
     price_autocallable_note Process discount path_generator self specs
       heston_process num_paths = Value NaN)
  /\ ((num_paths < 0)%Z ->
     price_autocallable_note Process discount path_generator self specs
       heston_process num_paths = Raise ValueError).
Proof.
  intros observation_dates Hne Hfuture Hgen.
  assert (Hfut : List.filter (fun d => (valuation_date self <? d)%Z) (coupon_dates specs)
                 = coupon_dates specs).
  { clear Hgen observation_dates Hne.
    induction (coupon_dates specs) as [|c cs IH]; simpl; [reflexivity|].
    assert (Hc : (valuation_date self <? c)%Z = true)
      by (apply Z.ltb_lt, Hfuture; now left).
    rewrite Hc, IH; [reflexivity|]. intros d Hd. apply Hfuture. now right. }
  assert (Hpast : List.filter (fun d => (d <=? valuation_date self)%Z) (coupon_dates specs)
                  = nil).
  { clear Hgen observation_dates Hne Hfut.
    induction (coupon_dates specs) as [|c cs IH]; simpl; [reflexivity|].
    assert (Hc : (c <=? valuation_date self)%Z = false)
      by (apply Z.leb_gt, Hfuture; now left).
    rewrite Hc. apply IH. intros d Hd. apply Hfuture. now right. }
  destruct (index_last_nonempty _ Hne) as [last Hlast].
  assert (Hlastin : In last (coupon_dates specs)).
  { destruct (index_last_snoc _ _ Hlast) as [init ->].
    apply in_or_app. right. now left. }
  assert (Hprefix : forall n,
    price_autocallable_note Process discount path_generator self specs heston_process n
    = let* paths := build_paths Process path_generator self specs heston_process n in
      Value (np_mean (List.map (path_pv discount self specs last) paths))).
  { intros n. unfold price_autocallable_note. rewrite Hlast. simpl.
    assert (Hl : (last <=? valuation_date self)%Z = false)
      by (apply Z.leb_gt, Hfuture, Hlastin).
    rewrite Hl. unfold already_autocalled.
    destruct (coupon_dates specs) as [|first cs] eqn:Hcd; [contradiction|]. simpl.
    assert (Hf : (first <=? valuation_date self)%Z = false)
      by (apply Z.leb_gt, Hfuture; now left).
    now rewrite Hf. }
  assert (Hbuild : forall n,
    build_paths Process path_generator self specs heston_process n
    = let* generated := generate_paths Process path_generator observation_dates
                          heston_process n in
      Value (List.map (@List.tl Q) generated)).
  { intros n. unfold build_paths. now rewrite Hfut, Hpast. }
  split.
  - intros ->. rewrite Hprefix, Hbuild. unfold generate_paths. now rewrite Hgen.
  - intros Hneg. rewrite Hprefix, Hbuild. unfold generate_paths. rewrite Hgen. simpl.
    apply Z.ltb_lt in Hneg. now rewrite Hneg.
Qed.

Lemma walk_ignores_fixings (specs specs' : product_specs) (expiration_date : Z) :
  coupon_dates specs = coupon_dates specs' ->
  notional specs = notional specs' ->
  autocall_barrier specs = autocall_barrier specs' ->
  coupon_barrier specs = coupon_barrier specs' ->
  protection_barrier specs = protection_barrier specs' ->
  coupon_rate specs = coupon_rate specs' ->
  has_memory specs = has_memory specs' ->
  final_payoff_formula specs = final_payoff_formula specs' ->
  forall path,
    path_pv discount self specs expiration_date path =
    path_pv discount self specs' expiration_date path.
Proof.
  intros Hcd Hn Ha Hc Hp Hr Hm Hf path.
  unfold path_pv. rewrite <- Hcd.
  generalize (combine (coupon_dates specs)
                (List.map (fun x => x / strike_price self) path)).
  generalize initial_state.
  intros st obs. revert st. induction obs as [|[d lvl] obs IH]; intros st; simpl;
    [reflexivity|].
  destruct (has_been_called st); [reflexivity|].
  replace (observe discount self specs' expiration_date st d lvl)
    with (observe discount self specs expiration_date st d lvl); [apply IH|].
  unfold observe, observation_payoff, coupon_multiple, memory_factor, final_payoff.
  now rewrite Hn, Ha, Hc, Hp, Hr, Hm, Hf.
Qed.

(** X11. For a note all of whose coupon dates are after the valuation date the
    past-fixings mapping is never read: two specifications that differ
    only in it have the same price, or fail alike. *)
Theorem future_note_ignores_past_fixings
    (specs specs' : product_specs) (heston_process : Process) (num_paths : Z) :
  coupon_dates specs = coupon_dates specs' ->
  notional specs = notional specs' ->
  autocall_barrier specs = autocall_barrier specs' ->
  coupon_barrier specs = coupon_barrier specs' ->
  protection_barrier specs = protection_barrier specs' ->
  coupon_rate specs = coupon_rate specs' ->
  has_memory specs = has_memory specs' ->
  final_payoff_formula specs = final_payoff_formula specs' ->
  (forall d, In d (coupon_dates specs) -> (valuation_date self < d)%Z) ->
  price_autocallable_note Process discount path_generator self specs
    heston_process num_paths =
  price_autocallable_note Process discount path_generator self specs'
    heston_process num_paths.
Proof.
  intros Hcd Hn Ha Hc Hp Hr Hm Hf Hfuture.
  unfold price_autocallable_note. rewrite <- Hcd.
  destruct (index_last (coupon_dates specs)) as [last|e]; simpl; [|reflexivity].
  destruct (last <=? valuation_date self)%Z; [reflexivity|].
  assert (Hcheck : forall s, coupon_dates s = coupon_dates specs ->
            already_autocalled self s =
            let* first := index_first (coupon_dates specs) in Value false).
  { intros s Hs. unfold already_autocalled. rewrite Hs.
    destruct (coupon_dates specs) as [|first cs]; [reflexivity|]. simpl.
    assert (Hfst : (first <=? valuation_date self)%Z = false)
      by (apply Z.leb_gt, Hfuture; now left).
    now rewrite Hfst. }
  rewrite (Hcheck specs eq_refl), (Hcheck specs' (eq_sym Hcd)).
  destruct (index_first (coupon_dates specs)) as [first|e]; simpl; [|reflexivity].
  assert (Hpast : List.filter (fun d => (d <=? valuation_date self)%Z) (coupon_dates specs)
                  = nil).
  { clear Hcheck Hcd. induction (coupon_dates specs) as [|c cs IH]; simpl; [reflexivity|].
    assert (Hle : (c <=? valuation_date self)%Z = false)
      by (apply Z.leb_gt, Hfuture; now left).
    rewrite Hle. apply IH. intros d Hd. apply Hfuture. now right. }
  unfold build_paths. rewrite <- Hcd, Hpast.
  destruct (generate_paths _ _ _ _ _) as [generated|e]; simpl; [|reflexivity].
  f_equal. f_equal. apply map_ext. intros path.
  now apply walk_ignores_fixings.
Qed.

End PricerEdges.

(** * Further properties of the calibration routines *)

Section ObjectiveFacts.

Import Optimize.
Local Open Scope R_scope.

Variable calibrationError : helper -> params -> R.

Lemma Rsum_nonneg (l : list R) : (forall x, In x l -> 0 <= x) -> 0 <= Rsum l.
Proof.
  induction l as [|y l IH]; intros Hl; simpl; [lra|].
  assert (0 <= y) by (apply Hl; now left).
  assert (0 <= Rsum l) by (apply IH; intros x Hx; apply Hl; now right).
  lra.
Qed.

Lemma Rsum_zero (l : list R) :
  (forall x, In x l -> 0 <= x) -> Rsum l = 0 -> forall x, In x l -> x = 0.
Proof.
  induction l as [|y l IH]; intros Hl Hsum x Hx; simpl in *; [contradiction|].
  assert (Hy : 0 <= y) by (apply Hl; now left).
  assert (Hrest : 0 <= Rsum l) by (apply Rsum_nonneg; intros z Hz; apply Hl; now right).
  destruct Hx as [<-|Hx]; [lra|].
  apply IH; [intros z Hz; apply Hl; now right | lra | exact Hx].
Qed.

Lemma Rsum_all_zero (l : list R) : (forall x, In x l -> x = 0) -> Rsum l = 0.
Proof.
  induction l as [|y l IH]; intros Hl; simpl; [reflexivity|].
  rewrite (Hl y) by now left. rewrite IH; [lra|].
  intros x Hx. apply Hl. now right.
Qed.

(** A root of a sum of non-negative terms built from the helpers' errors
    vanishes exactly when every term does. *)
Lemma root_sum_zero_iff (g : R -> R) (helpers : list helper) (p : params) :
  (forall e, 0 <= g e) ->
  (forall e, g e = 0 <-> e = 0) ->
  sqrt (Rsum (map (fun h => g (calibrationError h p)) helpers)) = 0
  <-> forall h, In h helpers -> calibrationError h p = 0.
Proof.
  intros Hpos Hzero.
  assert (Hterms : forall x,
            In x (map (fun h => g (calibrationError h p)) helpers) -> 0 <= x).
  { intros x Hx. apply in_map_iff in Hx. destruct Hx as (h & <- & _). apply Hpos. }
  split.
  - intros Hs h Hh. apply Hzero.
    apply (Rsum_zero _ Hterms).
    + apply sqrt_eq_0; [now apply Rsum_nonneg | exact Hs].
    + apply in_map_iff. now exists h.
  - intros Hall. rewrite Rsum_all_zero; [apply sqrt_0|].
    intros x Hx. apply in_map_iff in Hx. destruct Hx as (h & <- & Hh).
    apply Hzero. now apply Hall.
Qed.

(** X13. Both objectives vanish on a perfect fit and only there: the value of
    [cost_function], and that of [objective_function], is 0 exactly when
    the calibration error of every helper is 0 under the vector it is
    evaluated at. *)
Theorem objectives_vanish_exactly_on_perfect_fit (helpers : list helper) (p m : params) :
  (fst (cost_function calibrationError helpers p m) = 0
     <-> forall h, In h helpers -> calibrationError h p = 0)
  /\ (fst (objective_function calibrationError helpers p m) = 0
     <-> forall h, In h helpers -> calibrationError h p = 0).
Proof.
  rewrite cost_function_root_sum_squares, objective_function_root_sum_abs. simpl.
  split.
  - apply (root_sum_zero_iff (fun e => e * e)).
    + intros e. nra.
    + intros e. split; [intros H; nra | intros ->; lra].
  - apply (root_sum_zero_iff Rabs).
    + apply Rabs_pos.
    + intros e. split; [|intros ->; apply Rabs_R0].
      intros H. destruct (Req_dec e 0) as [He|He]; [exact He|].
      pose proof (Rabs_pos_lt e He). lra.
Qed.

Lemma last_cons_default {A : Type} (l : list A) (x d : A) :
  List.last (x :: l) d = List.last l x.
Proof.
  revert x d. induction l as [|y l IH]; intros x d; [reflexivity|].
  change (List.last (x :: y :: l) d) with (List.last (y :: l) d).
  now rewrite !IH.
Qed.

(** Each evaluation of [objective_function] leaves its argument in the
    model, so after a run the model holds the last vector evaluated, or
    what it held before when nothing was evaluated. *)
Lemma run_optimizer_final_model (helpers : list helper) (o : optimizer_run) (m : params) :
  snd (run_optimizer o (objective_function calibrationError helpers) m) =
  List.last (evaluations o (objective_function calibrationError helpers) m) m.
Proof.
  revert m. induction o as [x|p k IH]; intros m; [reflexivity|].
  change (run_optimizer (Evaluate p k) (objective_function calibrationError helpers) m)
    with (let '(v, m') := objective_function calibrationError helpers p m in
          run_optimizer (k v) (objective_function calibrationError helpers) m').
  change (evaluations (Evaluate p k) (objective_function calibrationError helpers) m)
    with (let '(v, m') := objective_function calibrationError helpers p m in
          p :: evaluations (k v) (objective_function calibrationError helpers) m').
  rewrite objective_function_root_sum_abs. cbv beta iota.
  rewrite last_cons_default. apply IH.
Qed.

(** What an optimizer run against the cost function of calibration.py
    ends with does not depend on the parameters the model held before the
    run: the cost is computed after the model has been overwritten. *)
Lemma run_strategy_result_stateless (vector : Type) (ql_Array : vector -> result params)
    (helpers : list helper) (s : calibration.strategy vector) (m m' : params) :
  fst (calibration.run_strategy vector s
         (calibration.cost_function calibrationError vector ql_Array helpers) m) =
  fst (calibration.run_strategy vector s
         (calibration.cost_function calibrationError vector ql_Array helpers) m').
Proof.
  revert m m'. induction s as [x|a k IH|e]; intros m m'; [reflexivity| |reflexivity].
  assert (Hstep : forall st,
    calibration.run_strategy vector (calibration.Probe vector a k)
      (calibration.cost_function calibrationError vector ql_Array helpers) st =
    let '(outcome, st') :=
      calibration.cost_function calibrationError vector ql_Array helpers a st in
    calibration.run_strategy vector (k outcome)
      (calibration.cost_function calibrationError vector ql_Array helpers) st')
    by reflexivity.
  rewrite !Hstep. unfold calibration.cost_function at 1 3.
  destruct (ql_Array a) as [p|e].
  - rewrite !cost_function_root_sum_squares. reflexivity.
  - apply IH.
Qed.

Variable self : HestonPricer.pricer.

(** X14. [HestonPricer.calibrate_heston_model] returns the model as the last
    evaluation of the objective left it: it holds the last vector the
    optimizer evaluated, and the initial guess when the optimizer evaluated
    nothing. *)
Theorem pricer_calibration_returns_last_evaluation
    (data : HestonPricer.market_data) (v0 kappa theta sigma rho : R)
    (parameter_bounds : bounds) (strategy : bounds -> optimizer_run)
    (helpers : list helper) :
  build_helpers (HestonPricer.valuation_date self)
    (HestonPricer.expiration_dates data) (HestonPricer.strikes data)
    (HestonPricer.volatilities data) = Value helpers ->
  let guess := v0 :: kappa :: theta :: sigma :: rho :: nil in
  HestonPricer.calibrate_heston_model calibrationError self data guess
    parameter_bounds (fun objective b => run_optimizer (strategy b) objective)
  = Value (List.last
             (evaluations (strategy parameter_bounds)
                (objective_function calibrationError helpers) guess)
             guess).
Proof.
  intros Hh guess. unfold HestonPricer.calibrate_heston_model. subst guess.
  rewrite Hh. simpl.
  rewrite <- run_optimizer_final_model.
  now destruct (run_optimizer _ _ _).
Qed.

(** X15. [calibration.calibrate_heston_model] does not depend on the values of
    the initial guess: the optimizer is given the cost function and the
    bounds only, and every evaluation overwrites the model. *)
Theorem calibration_ignores_initial_guess
    (vector : Type) (ql_Array : vector -> result params)
    (valuation_date : Z) (initial_params initial_params' : params)
    (expirations : list Z) (strikes : list R) (market_vols : list (list R))
    (strategy : bounds -> calibration.strategy vector) :
  length initial_params = 5%nat ->
  length initial_params' = 5%nat ->
  calibration.calibrate_heston_model calibrationError vector ql_Array
    valuation_date initial_params expirations strikes market_vols
    (fun objective b => calibration.run_strategy vector (strategy b) objective)
  = calibration.calibrate_heston_model calibrationError vector ql_Array
      valuation_date initial_params' expirations strikes market_vols
      (fun objective b => calibration.run_strategy vector (strategy b) objective).
Proof.
  intros H5 H5'.
  destruct initial_params as [|a1 [|a2 [|a3 [|a4 [|a5 [|a6 l]]]]]]; try discriminate H5.
  destruct initial_params' as [|b1 [|b2 [|b3 [|b4 [|b5 [|b6 l']]]]]]; try discriminate H5'.
  unfold calibration.calibrate_heston_model.
  destruct (build_helpers _ _ _ _) as [helpers|e]; simpl; [|reflexivity].
  pose proof (run_strategy_result_stateless vector ql_Array helpers
                (strategy calibration.default_bounds)
                (a1 :: a2 :: a3 :: a4 :: a5 :: nil)
                (b1 :: b2 :: b3 :: b4 :: b5 :: nil)) as Hres.
  destruct (calibration.run_strategy _ _ _ (a1 :: _)) as [x m1].
  destruct (calibration.run_strategy _ _ _ (b1 :: _)) as [x' m1'].
  simpl in Hres. subst x'.
  destruct x as [x|e]; simpl; [|reflexivity].
  now destruct (ql_Array x).
Qed.

(** X16. Both calibration routines unpack the initial guess into exactly five
    parameters first: any other length fails with [ValueError], whatever
    the surface and the optimizer are, and the optimizer is not run. *)
Theorem calibration_rejects_wrong_length
    (vector : Type) (ql_Array : vector -> result params)
    (valuation_date : Z) (initial_params : params)
    (expirations : list Z) (strikes : list R) (market_vols : list (list R))
    (data : HestonPricer.market_data) (parameter_bounds : bounds)
    (optimizer : (vector -> State (result R)) -> bounds -> State (result vector))
    (pricer_optimizer : (params -> State R) -> bounds -> State params) :
  length initial_params <> 5%nat ->
  calibration.calibrate_heston_model calibrationError vector ql_Array
    valuation_date initial_params expirations strikes market_vols optimizer
  = Raise ValueError
  /\ HestonPricer.calibrate_heston_model calibrationError self data initial_params
       parameter_bounds pricer_optimizer = Raise ValueError.
Proof.
  intros H5.
  destruct initial_params as [|a1 [|a2 [|a3 [|a4 [|a5 [|a6 l]]]]]];
    try (split; reflexivity).
  now contradiction H5.
Qed.

End ObjectiveFacts.

(** ** The calibration helpers *)

Section HelperFacts.

Import Optimize.
Local Open Scope R_scope.

Lemma traverse_succeeds {A B : Type} (f : A -> result B) (l : list A) (r : list B) :
  traverse f l = Value r -> forall a, In a l -> exists b, f a = Value b.
Proof.
  intros H. apply traverse_Forall2 in H.
  induction H as [|a b l r Hab _ IH]; intros x Hx; [contradiction|].
  destruct Hx as [<-|Hx]; [now exists b | now apply IH].
Qed.

Lemma traverse_fails {A B : Type} (f : A -> result B) (l : list A) (e : exn) :
  traverse f l = Raise e -> exists a, In a l /\ f a = Raise e.
Proof.
  induction l as [|a l IH]; simpl; [discriminate|].
  destruct (f a) as [b|e'] eqn:Ha; simpl.
  - destruct (traverse f l) as [bs|e'']; simpl; [discriminate|].
    intros [= ->]. destruct (IH eq_refl) as (x & Hx & Hfx).
    exists x. split; [now right | exact Hfx].
  - intros [= ->]. exists a. split; [now left | exact Ha].
Qed.

Lemma traverse_agree {A B : Type} (f g : A -> result B) (l : list A) (r : list B) :
  (forall a b, In a l -> f a = Value b -> g a = Value b) ->
  traverse f l = Value r -> traverse g l = Value r.
Proof.
  revert r. induction l as [|a l IH]; intros r Hfg; simpl; [easy|].
  destruct (f a) as [b|e] eqn:Ha; simpl; [|discriminate].
  destruct (traverse f l) as [bs|e] eqn:Hl; simpl; [|discriminate].
  intros [= <-].
  rewrite (Hfg a b (or_introl eq_refl) Ha). simpl.
  rewrite (IH bs); [reflexivity | | reflexivity].
  intros x y Hx. apply Hfg. now right.
Qed.

Lemma numbered_nth_error {A : Type} (l : list A) (s i : nat) (a : A) :
  nth_error (combine (seq s (length l)) l) i = Some (s + i, a)%nat
  <-> nth_error l i = Some a.
Proof.
  revert s i. induction l as [|x l IH]; intros s i; simpl.
  - destruct i; simpl; split; discriminate.
  - destruct i as [|i]; simpl.
    + rewrite Nat.add_0_r. split; intros [= ->]; reflexivity.
    + rewrite <- (IH (S s) i). now rewrite Nat.add_succ_r.
Qed.

Lemma numbered_In {A : Type} (l : list A) (s n : nat) (a : A) :
  In (n, a) (combine (seq s (length l)) l) ->
  exists i, n = (s + i)%nat /\ nth_error l i = Some a.
Proof.
  revert s. induction l as [|x l IH]; intros s; simpl; [contradiction|].
  intros [[= <- <-]|Hin].
  - exists 0%nat. split; [lia | reflexivity].
  - destruct (IH _ Hin) as (i & -> & Hi). exists (S i). split; [lia | exact Hi].
Qed.

(** [enumerate] pairs each element with its position. *)
Lemma enumerate_nth_error {A : Type} (l : list A) (i : nat) (a : A) :
  nth_error (enumerate l) i = Some (i, a) <-> nth_error l i = Some a.
Proof. apply (numbered_nth_error l 0 i a). Qed.

Lemma enumerate_In {A : Type} (l : list A) (i : nat) (a : A) :
  In (i, a) (enumerate l) <-> nth_error l i = Some a.
Proof.
  split.
  - intros H. apply numbered_In in H. destruct H as (j & -> & Hj). exact Hj.
  - intros H. apply enumerate_nth_error in H. now apply nth_error_In in H.
Qed.

Lemma index_value {A : Type} (l : list A) (i : nat) (a : A) :
  index l i = Value a <-> nth_error l i = Some a.
Proof.
  unfold index. destruct (nth_error l i); split; congruence.
Qed.

Lemma index_error {A : Type} (l : list A) (i : nat) (e : exn) :
  index l i = Raise e -> e = IndexError.
Proof.
  unfold index. destruct (nth_error l i); [discriminate | congruence].
Qed.

Variable valuation_date : Z.
Variable expirations : list Z.
Variable strikes : list R.
Variable market_vols : list (list R).

(** The body of the inner loop for the pair at positions [i] and [j]. *)
Lemma helper_built (i j : nat) (expiry : Z) (k : R) (h : helper) :
  (let* row := index market_vols i in
   let* vol := index row j in
   Value {| maturity := expiry - valuation_date; strike := k; market_vol := vol |})
  = Value h
  <-> exists row vol,
        nth_error market_vols i = Some row /\ nth_error row j = Some vol
        /\ h = {| maturity := expiry - valuation_date; strike := k; market_vol := vol |}.
Proof.
  split.
  - destruct (index market_vols i) as [row|e] eqn:Hrow; simpl; [|discriminate].
    destruct (index row j) as [vol|e] eqn:Hvol; simpl; [|discriminate].
    intros [= <-]. exists row, vol.
    now rewrite <- !index_value.
  - intros (row & vol & Hrow & Hvol & ->).
    apply index_value in Hrow. apply index_value in Hvol.
    rewrite Hrow. simpl. now rewrite Hvol.
Qed.

(** X19. The helpers are built exactly when the volatility matrix has a quote
    at every (expiry, strike) position, surplus rows and columns being
    allowed; any failure is the [IndexError] of a missing quote. *)
Theorem build_helpers_needs_every_quote :
  ((exists helpers,
      build_helpers valuation_date expirations strikes market_vols = Value helpers)
   <-> forall i j, (i < length expirations)%nat -> (j < length strikes)%nat ->
         exists row vol,
           nth_error market_vols i = Some row /\ nth_error row j = Some vol)
  /\ forall e,
       build_helpers valuation_date expirations strikes market_vols = Raise e ->
       e = IndexError.
Proof.
  unfold build_helpers. repeat split.
  - intros [helpers Hh] i j Hi Hj.
    destruct (traverse _ (enumerate expirations)) as [rows|e] eqn:Hrows;
      simpl in Hh; [|discriminate].
    destruct (nth_error expirations i) as [expiry|] eqn:He;
      [|apply nth_error_None in He; lia].
    destruct (nth_error strikes j) as [k|] eqn:Hk;
      [|apply nth_error_None in Hk; lia].
    destruct (traverse_succeeds _ _ _ Hrows (i, expiry)) as [row Hrow];
      [now apply enumerate_In|].
    simpl in Hrow.
    destruct (traverse_succeeds _ _ _ Hrow (j, k)) as [h Hbody];
      [now apply enumerate_In|].
    simpl in Hbody. apply helper_built in Hbody.
    destruct Hbody as (r & vol & Hr & Hvol & _). now exists r, vol.
  - intros Hquotes.
    destruct (traverse_total
                (fun '(i, expiry) =>
                   traverse (fun '(j, k) =>
                     let* row := index market_vols i in
                     let* vol := index row j in
                     Value {| maturity := expiry - valuation_date;
                              strike := k; market_vol := vol |})
                     (enumerate strikes))
                (enumerate expirations)) as [rows Hrows].
    { intros [i expiry] Hin. apply enumerate_In in Hin.
      apply traverse_total. intros [j k] Hjn. apply enumerate_In in Hjn.
      destruct (Hquotes i j) as (row & vol & Hrow & Hvol).
      - apply nth_error_Some. congruence.
      - apply nth_error_Some. congruence.
      - eexists. apply helper_built. now exists row, vol. }
    rewrite Hrows. simpl. now eexists.
  - intros e.
    destruct (traverse _ (enumerate expirations)) as [rows|e'] eqn:Hrows;
      simpl; [discriminate|].
    intros [= ->].
    apply traverse_fails in Hrows. destruct Hrows as ([i expiry] & _ & Hrow).
    simpl in Hrow. apply traverse_fails in Hrow.
    destruct Hrow as ([j k] & _ & Hbody). simpl in Hbody.
    destruct (index market_vols i) as [row|e'] eqn:Hi; simpl in Hbody.
    + destruct (index row j) as [vol|e'] eqn:Hj; simpl in Hbody; [discriminate|].
      injection Hbody as <-. exact (index_error _ _ _ Hj).
    + injection Hbody as <-. exact (index_error _ _ _ Hi).
Qed.

Lemma Forall2_nth_error {A B : Type} (P : A -> B -> Prop) (l : list A) (r : list B)
    (i : nat) (a : A) :
  Forall2 P l r -> nth_error l i = Some a ->
  exists b, nth_error r i = Some b /\ P a b.
Proof.
  intros H. revert i. induction H as [|x y l r Hxy _ IH]; intros i Hi.
  - destruct i; discriminate.
  - destruct i as [|i]; simpl in *.
    + injection Hi as <-. now exists y.
    + now apply IH.
Qed.

Lemma concat_nth_error {A : Type} (n : nat) (rows : list (list A)) (i j : nat)
    (row : list A) :
  Forall (fun r => length r = n) rows ->
  nth_error rows i = Some row ->
  (j < n)%nat ->
  nth_error (concat rows) (i * n + j) = nth_error row j.
Proof.
  intros Hrows. revert i. induction Hrows as [|r rows Hr _ IH]; intros i Hi Hj.
  - destruct i; discriminate.
  - destruct i as [|i]; simpl in *.
    + injection Hi as ->. apply nth_error_app1. lia.
    + rewrite nth_error_app2 by lia.
      replace (n + i * n + j - length r)%nat with (i * n + j)%nat by lia.
      now apply IH.
Qed.

(** X20. The helpers come in row-major order: the helper of the [i]-th expiry
    and the [j]-th strike sits at position [i * len(strikes) + j] and
    carries the days to that expiry, that strike and the quote
    [market_vols[i][j]]. *)
Theorem build_helpers_row_major (helpers : list helper) (i j : nat)
    (expiry : Z) (k : R) :
  build_helpers valuation_date expirations strikes market_vols = Value helpers ->
  nth_error expirations i = Some expiry ->
  nth_error strikes j = Some k ->
  exists row vol,
    nth_error market_vols i = Some row /\ nth_error row j = Some vol
    /\ nth_error helpers (i * length strikes + j) =
       Some {| maturity := expiry - valuation_date; strike := k; market_vol := vol |}.
Proof.
  unfold build_helpers. intros Hh He Hk.
  destruct (traverse _ (enumerate expirations)) as [rows|e] eqn:Hrows;
    simpl in Hh; [|discriminate].
  injection Hh as <-.
  apply traverse_Forall2 in Hrows.
  assert (Huniform : Forall (fun r => length r = length strikes) rows).
  { clear He. induction Hrows as [|[i' e'] row ies rows' Hrow _ IH];
      constructor; [|exact IH].
    apply traverse_length in Hrow. now rewrite enumerate_length in Hrow. }
  destruct (Forall2_nth_error _ _ _ i (i, expiry) Hrows) as (hrow & Hhrow & Hinner);
    [now apply enumerate_nth_error|].
  simpl in Hinner. apply traverse_Forall2 in Hinner.
  destruct (Forall2_nth_error _ _ _ j (j, k) Hinner) as (h & Hh & Hbody);
    [now apply enumerate_nth_error|].
  simpl in Hbody. apply helper_built in Hbody.
  destruct Hbody as (row & vol & Hrow & Hvol & ->).
  exists row, vol. repeat split; [exact Hrow | exact Hvol |].
  rewrite (concat_nth_error (length strikes) rows i j hrow Huniform Hhrow); [exact Hh|].
  apply nth_error_Some. congruence.
Qed.

(** X21. Surplus quotes are not looked at: rows appended to the volatility
    matrix and quotes appended to its rows leave the helpers as they
    were. *)
Theorem build_helpers_ignores_surplus (helpers : list helper)
    (surplus_rows : list (list R)) (surplus_quotes : list R) :
  build_helpers valuation_date expirations strikes market_vols = Value helpers ->
  build_helpers valuation_date expirations strikes
    (map (fun row => row ++ surplus_quotes) market_vols ++ surplus_rows)
  = Value helpers.
Proof.
  unfold build_helpers.
  destruct (traverse _ (enumerate expirations)) as [rows|e] eqn:Hrows;
    simpl; [|discriminate].
  intros [= <-].
  erewrite traverse_agree; [reflexivity | | exact Hrows].
  intros [i expiry] row _ Hrow. simpl in *.
  eapply traverse_agree; [|exact Hrow].
  intros [j k] h _ Hbody. simpl in *.
  destruct (index market_vols i) as [r|e] eqn:Hi; simpl in Hbody; [|discriminate].
  destruct (index r j) as [vol|e] eqn:Hj; simpl in Hbody; [|discriminate].
  apply index_value in Hi. apply index_value in Hj.
  assert (Hi' : index (map (fun row => row ++ surplus_quotes) market_vols ++ surplus_rows) i
                = Value (r ++ surplus_quotes)).
  { apply index_value. rewrite nth_error_app1.
    - exact (map_nth_error (fun row => row ++ surplus_quotes) i market_vols Hi).
    - rewrite length_map. apply nth_error_Some. congruence. }
  rewrite Hi'. simpl.
  assert (Hj' : index (r ++ surplus_quotes) j = Value vol).
  { apply index_value. rewrite nth_error_app1; [exact Hj|].
    apply nth_error_Some. congruence. }
  now rewrite Hj'.
Qed.

End HelperFacts.

(** * Instances *)

Lemma called_path_ignores_later_levels_witness :
  HestonPricer.walk no_discounting pricer0 (athena None) 720
    HestonPricer.initial_state (((180%Z, 1%Q) :: nil) ++ ((360%Z, 1 # 2) :: nil)) =
  HestonPricer.walk no_discounting pricer0 (athena None) 720
    HestonPricer.initial_state ((180%Z, 1%Q) :: nil).
Proof.
  apply (called_path_ignores_later_levels no_discounting pricer0 (athena None) 720).
  reflexivity.
Defined.

Lemma past_observations_add_nothing_witness :
  HestonPricer.total_pv
    (HestonPricer.walk no_discounting pricer_after_first phoenix 720
       HestonPricer.initial_state ((180%Z, 8 # 10) :: nil))
  = HestonPricer.total_pv HestonPricer.initial_state.
Proof.
  apply (past_observations_add_nothing no_discounting pricer_after_first phoenix 720).
  intros d lvl [[= <- <-]|[]]. simpl. lia.
Defined.

Lemma without_memory_counter_is_inert_witness :
  HestonPricer.total_pv
    (HestonPricer.walk no_discounting pricer0 plain_note 720
       HestonPricer.initial_state ((180%Z, 8 # 10) :: (720%Z, 8 # 10) :: nil)) =
  HestonPricer.total_pv
    (HestonPricer.walk no_discounting pricer0 plain_note 720
       {| HestonPricer.total_pv := 0;
          HestonPricer.unpaid_coupons := 3;
          HestonPricer.has_been_called := false |}
       ((180%Z, 8 # 10) :: (720%Z, 8 # 10) :: nil))
  /\ HestonPricer.has_been_called
       (HestonPricer.walk no_discounting pricer0 plain_note 720
          HestonPricer.initial_state ((180%Z, 8 # 10) :: (720%Z, 8 # 10) :: nil)) =
     HestonPricer.has_been_called
       (HestonPricer.walk no_discounting pricer0 plain_note 720
          {| HestonPricer.total_pv := 0;
             HestonPricer.unpaid_coupons := 3;
             HestonPricer.has_been_called := false |}
          ((180%Z, 8 # 10) :: (720%Z, 8 # 10) :: nil)).
Proof.
  apply (without_memory_counter_is_inert no_discounting pricer0 plain_note 720);
    reflexivity.
Defined.

Lemma accumulated_value_never_decreases_witness :
  (HestonPricer.total_pv HestonPricer.initial_state <=
   HestonPricer.total_pv
     (HestonPricer.walk no_discounting pricer0 recovery_note 720
        HestonPricer.initial_state ((180%Z, 95 # 100) :: (360%Z, 105 # 100) :: nil)))%Q.
Proof.
  apply (accumulated_value_never_decreases no_discounting pricer0 recovery_note 720).
  - reflexivity.
  - discriminate.
  - intros x. discriminate.
  - intros d. discriminate.
  - simpl. lia.
Defined.

Lemma principal_protected_at_expiration_witness :
  exists payoff : Q,
    HestonPricer.observation_payoff pricer0 (athena None) 720 0 720 (7 # 10)
      = (payoff, 0%Z, false)
    /\ (HestonPricer.notional (athena None) <= payoff)%Q.
Proof.
  apply (principal_protected_at_expiration pricer0 (athena None) 720 0 (7 # 10)).
  - discriminate.
  - discriminate.
  - lia.
  - right. discriminate.
Defined.

Lemma price_at_most_notional_and_coupons_witness :
  ((3300000000 # 3000000) <=
   HestonPricer.notional (athena None)
   * (1 + HestonPricer.coupon_rate (athena None)
          * inject_Z (Z.of_nat (length (HestonPricer.coupon_dates (athena None))))))%Q.
Proof.
  apply (price_at_most_notional_and_coupons unit no_discounting
           (fixed_generator sample_path) pricer0 (athena None) tt 3).
  - discriminate.
  - discriminate.
  - intros d. split; discriminate.
  - intros lvl Hlvl. unfold HestonPricer.final_payoff. simpl in *.
    assert (E : (lvl * 100 / 100 == lvl)%Q) by field.
    rewrite E. lra.
  - repeat constructor; simpl; lia.
  - vm_compute. reflexivity.
Defined.

Lemma generate_paths_shape_witness :
  length (sample_path :: sample_path :: nil) = Z.to_nat 2
  /\ Forall (fun row => length row = length (0 :: 180 :: 360 :: 540 :: 720 :: nil)%Z)
       (sample_path :: sample_path :: nil).
Proof.
  apply (generate_paths_shape unit (fixed_generator sample_path)
           (0 :: 180 :: 360 :: 540 :: 720 :: nil)%Z tt 2).
  reflexivity.
Defined.

Lemma already_autocalled_iff_witness :
  HestonPricer.already_autocalled pricer_after_first
    (athena (Some {[ 180%Z := 100%Q ]})) = Value true
  <-> exists d v,
        HestonPricer.fixings (athena (Some {[ 180%Z := 100%Q ]})) !! d = Some v
        /\ (HestonPricer.autocall_barrier (athena (Some {[ 180%Z := 100%Q ]}))
            * HestonPricer.strike_price pricer_after_first <= v)%Q.
Proof.
  apply (already_autocalled_iff pricer_after_first
           (athena (Some {[ 180%Z := 100%Q ]})) 180).
  - reflexivity.
  - simpl. lia.
Defined.

Lemma missing_past_fixing_raises_witness :
  HestonPricer.price_autocallable_note unit no_discounting
    (fixed_generator short_path) pricer_after_second
    (athena (Some {[ 180%Z := 90%Q ]})) tt 2
  = Raise KeyError.
Proof.
  apply (missing_past_fixing_raises unit no_discounting (fixed_generator short_path)
           pricer_after_second (athena (Some {[ 180%Z := 90%Q ]})) tt 2 720 360
           (short_path :: short_path :: nil)).
  - reflexivity.
  - simpl. lia.
  - vm_compute. reflexivity.
  - vm_compute. reflexivity.
  - simpl. auto.
  - simpl. lia.
  - vm_compute. reflexivity.
Defined.

Lemma price_of_degenerate_path_count_witness :
  HestonPricer.price_autocallable_note unit no_discounting
    (fixed_generator sample_path) pricer0 (athena None) tt 0
  = Value NaN.
Proof.
  apply (proj1 (price_of_degenerate_path_count unit no_discounting
                  (fixed_generator sample_path) pricer0 (athena None) tt 0
                  (fun _ => sample_path)
                  ltac:(discriminate)
                  ltac:(simpl; intros d Hd; lia)
                  eq_refl)).
  reflexivity.
Defined.

Lemma future_note_ignores_past_fixings_witness :
  HestonPricer.price_autocallable_note unit no_discounting
    (fixed_generator sample_path) pricer0 (athena None) tt 3
  = HestonPricer.price_autocallable_note unit no_discounting
      (fixed_generator sample_path) pricer0 (athena (Some {[ 180%Z := 100%Q ]})) tt 3.
Proof.
  apply (future_note_ignores_past_fixings unit no_discounting
           (fixed_generator sample_path) pricer0);
    try reflexivity.
  simpl. intros d Hd. lia.
Defined.

Lemma price_returns_a_number_witness :
  exists v : Q,
    HestonPricer.price_autocallable_note unit no_discounting
      (fixed_generator sample_path) pricer0 (athena None) tt 3 = Value (Num v).
Proof.
  apply (price_returns_a_number unit no_discounting (fixed_generator sample_path)
           pricer0 (athena None) tt 3 (fun _ => sample_path)).
  - discriminate.
  - reflexivity.
  - intros i. reflexivity.
  - lia.
  - simpl. intros d Hd Hle. lia.
Defined.

Lemma pricer_calibration_returns_last_evaluation_witness :
  HestonPricer.calibrate_heston_model error_four pricer0 one_quote guess
    calibration.default_bounds
    (fun objective b => Optimize.run_optimizer (probe_strategy b) objective)
  = Value (List.last
             (Optimize.evaluations (probe_strategy calibration.default_bounds)
                (Optimize.objective_function error_four (one_helper :: nil)) guess)
             guess).
Proof.
  apply (pricer_calibration_returns_last_evaluation error_four pricer0 one_quote).
  reflexivity.
Defined.

Lemma calibration_ignores_initial_guess_witness :
  calibration.calibrate_heston_model error_four pyvector swig_Array 0 guess
    (180%Z :: nil) (100%R :: nil) (((35 / 100)%R :: nil) :: nil)
    (fun objective b => calibration.run_strategy pyvector (list_probes b) objective)
  = calibration.calibrate_heston_model error_four pyvector swig_Array 0 candidate_b
      (180%Z :: nil) (100%R :: nil) (((35 / 100)%R :: nil) :: nil)
      (fun objective b => calibration.run_strategy pyvector (list_probes b) objective).
Proof.
  apply (calibration_ignores_initial_guess error_four pyvector swig_Array); reflexivity.
Defined.

Lemma calibration_rejects_wrong_length_witness :
  calibration.calibrate_heston_model error_four pyvector swig_Array 0 (1%R :: 2%R :: nil)
    (180%Z :: nil) (100%R :: nil) (((35 / 100)%R :: nil) :: nil)
    (fun objective b => calibration.run_strategy pyvector (list_probes b) objective)
  = Raise ValueError
  /\ HestonPricer.calibrate_heston_model error_four pricer0 one_quote
       (1%R :: 2%R :: nil) calibration.default_bounds two_probes
     = Raise ValueError.
Proof.
  apply (calibration_rejects_wrong_length error_four pricer0 pyvector swig_Array).
  simpl. lia.
Defined.

Lemma calibration_applies_optimizer_result_witness :
  calibration.calibrate_heston_model error_four pyvector swig_Array 0 guess
    (180%Z :: nil) (100%R :: nil) (((35 / 100)%R :: nil) :: nil)
    (fun objective b => calibration.run_strategy pyvector (list_probes b) objective)
  = Value (candidate_a, PyList candidate_a).
Proof.
  apply (proj1 (calibration_applies_optimizer_result error_four pyvector swig_Array 0
                  (1 / 100)%R (1 / 2)%R (1 / 100)%R (1 / 5)%R (- (1 / 2))%R
                  (180%Z :: nil) (100%R :: nil) (((35 / 100)%R :: nil) :: nil)
                  (fun objective b =>
                     calibration.run_strategy pyvector (list_probes b) objective)
                  (one_helper :: nil) (Value (PyList candidate_a)) candidate_b
                  eq_refl eq_refl)
           (PyList candidate_a) candidate_a eq_refl eq_refl).
Defined.

(** With numpy arrays handed over, as the optimizers of scipy do, the first
    evaluation of the cost function raises on line 55 and the call fails
    with [TypeError]. *)
Lemma calibration_with_numpy_vectors_raises :
  calibration.calibrate_heston_model error_four pyvector swig_Array 0 guess
    (180%Z :: nil) (100%R :: nil) (((35 / 100)%R :: nil) :: nil)
    (fun objective b => calibration.run_strategy pyvector (numpy_probes b) objective)
  = Raise TypeError.
Proof. reflexivity. Qed.

Lemma build_helpers_count_witness :
  length (one_helper :: nil) =
  (length (180%Z :: nil) * length (100%R :: nil))%nat.
Proof.
  apply (build_helpers_count 0 (180%Z :: nil) (100%R :: nil)
           (((35 / 100)%R :: nil) :: nil) (one_helper :: nil)).
  reflexivity.
Defined.

Lemma build_helpers_row_major_witness :
  exists row vol,
    nth_error (((35 / 100)%R :: nil) :: nil) 0 = Some row
    /\ nth_error row 0 = Some vol
    /\ nth_error (one_helper :: nil) (0 * length (100%R :: nil) + 0) =
       Some {| Optimize.maturity := 180 - 0;
               Optimize.strike := 100%R;
               Optimize.market_vol := vol |}.
Proof.
  apply (build_helpers_row_major 0 (180%Z :: nil) (100%R :: nil)
           (((35 / 100)%R :: nil) :: nil) (one_helper :: nil) 0 0 180 100%R);
    reflexivity.
Defined.

Lemma build_helpers_ignores_surplus_witness :
  Optimize.build_helpers 0 (180%Z :: nil) (100%R :: nil)
    (map (fun row => row ++ (1 / 2)%R :: nil) (((35 / 100)%R :: nil) :: nil)
     ++ ((1 / 4)%R :: nil) :: nil)
  = Value (one_helper :: nil).
Proof.
  apply (build_helpers_ignores_surplus 0 (180%Z :: nil) (100%R :: nil)
           (((35 / 100)%R :: nil) :: nil) (one_helper :: nil)).
  reflexivity.
Defined.

(** * The time grid and the Athena scenario *)

Section GridFacts.

Import HestonPricer.
Local Open Scope Q_scope.

Lemma yearFraction_increasing (d0 d d' : Z) :
  (d < d')%Z -> yearFraction d0 d < yearFraction d0 d'.
Proof.
  intros Hlt. unfold yearFraction, Qdiv, Qlt. simpl. lia.
Qed.

Lemma yearFraction_same (d : Z) : yearFraction d d == 0.
Proof.
  unfold yearFraction. rewrite Z.sub_diag. reflexivity.
Qed.

(** X23. The time grid handed to the path generator starts at 0 and is strictly
    increasing whenever the observation dates are. *)
Theorem time_grid_increasing (observation_dates : list Z) :
  StronglySorted Z.lt observation_dates ->
  StronglySorted Qlt (time_grid_of observation_dates)
  /\ match time_grid_of observation_dates with
     | nil => observation_dates = nil
     | t0 :: _ => t0 == 0
     end.
Proof.
  intros Hsorted. destruct observation_dates as [|d0 ds]; [split; [constructor | reflexivity]|].
  unfold time_grid_of. split; [|simpl; apply yearFraction_same].
  generalize d0 at 1 as origin. intros origin.
  induction Hsorted as [|d l Hl IH Hall]; simpl; constructor.
  - exact IH.
  - clear IH Hl. induction Hall as [|x l Hx _ IH]; simpl; constructor.
    + now apply yearFraction_increasing.
    + exact IH.
Qed.

Variable discount : Z -> Q.
Variable self : pricer.
Variable specs : product_specs.
Variable expiration_date : Z.

(** X22. With the memory feature, a path that misses the coupon at its first
    intermediate date and reaches the autocall barrier at the next one is
    called there with the notional and two coupons, the missed one
    included; nothing is paid at the first date and later levels are not
    looked at. *)
Theorem autocall_pays_missed_coupons
    (d1 d2 : Z) (l1 l2 : Q) (rest : list (Z * Q)) :
  has_memory specs = true ->
  d1 <> expiration_date -> d2 <> expiration_date ->
  l1 < coupon_barrier specs -> l1 < autocall_barrier specs ->
  autocall_barrier specs <= l2 ->
  walk discount self specs expiration_date initial_state
    ((d1, l1) :: (d2, l2) :: rest) =
  {| total_pv :=
       credit discount self (credit discount self 0 d1 0) d2
         (notional specs * (1 + coupon_rate specs * 2));
     unpaid_coupons := 1;
     has_been_called := true |}.
Proof.
  intros Hmem Hd1 Hd2 Hc1 Ha1 Ha2.
  rewrite walk_active by reflexivity. unfold observe. simpl unpaid_coupons.
  rewrite (intermediate_miss _ _ _ _ _ _ Hd1 Ha1 Hc1).
  rewrite walk_active by reflexivity. unfold observe. simpl unpaid_coupons.
  simpl total_pv. change (0 + 1)%Z with 1%Z.
  rewrite (intermediate_autocall _ _ _ _ _ _ Hd2 Ha2).
  rewrite walk_called by reflexivity.
  unfold coupon_multiple, memory_factor. now rewrite Hmem.
Qed.

End GridFacts.

Lemma time_grid_increasing_witness :
  StronglySorted Qlt (HestonPricer.time_grid_of (0 :: 180 :: 360 :: nil)%Z)
  /\ match HestonPricer.time_grid_of (0 :: 180 :: 360 :: nil)%Z with
     | nil => (0 :: 180 :: 360 :: nil)%Z = nil
     | t0 :: _ => (t0 == 0)%Q
     end.
Proof.
  apply (time_grid_increasing (0 :: 180 :: 360 :: nil)%Z).
  repeat constructor; lia.
Defined.

Lemma autocall_pays_missed_coupons_witness :
  HestonPricer.walk no_discounting pricer0 (athena None) 720
    HestonPricer.initial_state
    ((180%Z, 95 # 100) :: (360%Z, 105 # 100) :: (540%Z, 1%Q) :: nil) =
  {| HestonPricer.total_pv :=
       HestonPricer.credit no_discounting pricer0
         (HestonPricer.credit no_discounting pricer0 0 180 0) 360
         (HestonPricer.notional (athena None)
          * (1 + HestonPricer.coupon_rate (athena None) * 2))%Q;
     HestonPricer.unpaid_coupons := 1;
     HestonPricer.has_been_called := true |}.
Proof.
  apply (autocall_pays_missed_coupons no_discounting pricer0 (athena None) 720);
    try reflexivity; discriminate.
Defined.

(** * The time grid of the simulation *)

(** Every path of a returned batch has one level per observation date. *)
Lemma generate_paths_columns (Process : Type)
    (path_generator : Process -> list Q -> Z -> result (nat -> list Q))
    (observation_dates : list Z) (heston_process : Process) (num_paths : Z)
    (batch : list (list Q)) :
  HestonPricer.generate_paths Process path_generator observation_dates
    heston_process num_paths = Value batch ->
  Forall (fun row => length row = length observation_dates) batch.
Proof.
  unfold HestonPricer.generate_paths. intros Hgen.
  destruct (path_generator _ _ _) as [draw|e]; simpl in Hgen; [|discriminate].
  destruct (num_paths <? 0)%Z; [discriminate|].
  apply traverse_Forall2 in Hgen. rewrite time_grid_of_length in Hgen.
  induction Hgen as [|i row idx rows Hrow _ IH]; constructor; [|exact IH].
  now apply assign_row_length in Hrow.
Qed.

(** C8 (as amended). For [n >= 1] observation dates the time grid handed
    to the external path generator consists of the year fractions of the
    [n] observation dates and of nothing else: no point is inserted between
    two observation dates, so the simulation has one time step per
    observation interval, and every path of a returned batch has exactly
    [n] levels.  The number [2 * (n - 1)] of line 56 is the dimension of
    the random sequence the generator is built with, two numbers per step.
    Grid and dimension are fixed by the observation dates: the result
    depends on the generator only through its answer for them, and no
    argument of [generate_paths] changes them. *)
Theorem time_grid_is_the_observation_dates
    (Process : Type)
    (path_generator : Process -> list Q -> Z -> result (nat -> list Q))
    (observation_dates : list Z) (heston_process : Process) (num_paths : Z) :
  observation_dates <> nil ->
  let time_grid := HestonPricer.time_grid_of observation_dates in
  let dimension := (2 * Z.of_nat (length observation_dates - 1))%Z in
  time_grid =
    List.map (HestonPricer.yearFraction (List.hd 0%Z observation_dates))
      observation_dates
  /\ (length time_grid - 1 = length observation_dates - 1)%nat
  /\ HestonPricer.grid_steps (length time_grid) = dimension
  /\ (forall batch,
        HestonPricer.generate_paths Process path_generator observation_dates
          heston_process num_paths = Value batch ->
        Forall (fun row => length row = length observation_dates) batch)
  /\ (forall other : Process -> list Q -> Z -> result (nat -> list Q),
        other heston_process time_grid dimension =
        path_generator heston_process time_grid dimension ->
        HestonPricer.generate_paths Process other observation_dates
          heston_process num_paths =
        HestonPricer.generate_paths Process path_generator observation_dates
          heston_process num_paths).
Proof.
  intros Hne time_grid dimension.
  assert (Hdim : HestonPricer.grid_steps (length time_grid) = dimension).
  { unfold time_grid. rewrite time_grid_of_length.
    unfold HestonPricer.grid_steps, dimension.
    destruct observation_dates as [|d0 ds]; [contradiction|]. simpl length. lia. }
  repeat split.
  - unfold time_grid. destruct observation_dates as [|d0 ds]; [contradiction|].
    reflexivity.
  - unfold time_grid. now rewrite time_grid_of_length.
  - exact Hdim.
  - apply generate_paths_columns.
  - intros other Hsame. unfold HestonPricer.generate_paths.
    fold time_grid. now rewrite Hdim, Hsame.
Qed.

Lemma time_grid_is_the_observation_dates_witness :
  HestonPricer.time_grid_of (0 :: 180 :: 360 :: nil)%Z =
  List.map (HestonPricer.yearFraction (List.hd 0%Z (0 :: 180 :: 360 :: nil)%Z))
    (0 :: 180 :: 360 :: nil)%Z.
Proof.
  apply (proj1 (time_grid_is_the_observation_dates unit (fixed_generator sample_path)
                  (0 :: 180 :: 360 :: nil)%Z tt 1 ltac:(discriminate))).
Defined.

(** C8, as stated, fails for three observation dates: the time grid has
    three points, that is two steps for two observation intervals, fewer
    than two per interval and fewer than twice the number of observation
    points; and a generator that draws five levels per path, two steps per
    interval, is refused. *)
Lemma three_dates_two_time_steps :
  length (HestonPricer.time_grid_of (0 :: 180 :: 360 :: nil)%Z) = 3%nat
  /\ ~ (2 * (length (0 :: 180 :: 360 :: nil)%Z - 1)
        <= length (HestonPricer.time_grid_of (0 :: 180 :: 360 :: nil)%Z) - 1)%nat
  /\ ~ (2 * length (0 :: 180 :: 360 :: nil)%Z
        <= length (HestonPricer.time_grid_of (0 :: 180 :: 360 :: nil)%Z) - 1)%nat
  /\ length sample_path = 5%nat
  /\ HestonPricer.generate_paths unit (fixed_generator sample_path)
       (0 :: 180 :: 360 :: nil)%Z tt 1 = Raise ValueError.
Proof.
  repeat split; simpl; lia.
Qed.
